(** * quote_your_bs: the retrieval pipeline, the Nomic embedding wrapper,
      the Messenger loader and the ingestion script, embedded in Rocq.

    Python values are modelled as follows.
    - [str] is [string] (a Python code point sequence, here its UTF-8 bytes).
    - [float] distance scores are [Q]: every finite double is a rational and
      the order on finite doubles is the order on [Q]. NaN and the
      infinities are outside the model.
    - [dict] with string keys is [gmap string _]; a dict literal
      [{K: v, **d}] lets the entries of [d] override [K: v].
    - an exception is a value of [exn]; code that can raise, call a
      collaborator or log runs in the monad [M], which records the calls and
      log lines made up to the point of return or raise. *)

From Stdlib Require Import QArith Ascii DecimalString DecimalNat Sorted.
From stdpp Require Import gmap strings list fin_maps sorting.

#[local] Set Warnings "-clear-no-such-hyp".

(** ** Exceptions, events and the effect monad *)

(** Exceptions that reach the modelled code. Only subclasses of Python's
    [Exception] occur; [ExternalError] stands for anything raised inside a
    collaborator (openai, chroma, pydantic, the file system), with the name
    of its class. *)
Inductive exn : Type :=
| KeyError (key : string)
| TypeError (msg : string)
| IndexError (msg : string)
| ValueError (msg : string)
| JSONDecodeError (msg : string)
| ExternalError (cls msg : string).

(** [str(e)] as used in the f-strings of the loader. *)
Definition exn_str (e : exn) : string :=
  match e with
  | KeyError k => "'" +:+ k +:+ "'"
  | TypeError m | IndexError m | ValueError m | JSONDecodeError m => m
  | ExternalError _ m => m
  end.

Inductive result (A : Type) : Type :=
| Ok (a : A)
| Raise (e : exn).
Arguments Ok {A} a.
Arguments Raise {A} e.

(** A langchain [Document]: text and a metadata dict. Every metadata value
    the loader writes is a string (see [extract_conversation_meta]). *)
Record Document : Type := mkDocument {
  page_content : string;
  metadata : gmap string string
}.

(** A chat message handed to the chat model. *)
Inductive Message : Type :=
| SystemMessage (content : string)
| HumanMessage (content : string).

(** What the code does to the outside world, in order. *)
Inductive event : Type :=
| SimilaritySearch (query : string) (k : Z)
| ChatInvoke (schema : string) (messages : list Message)
| EmbeddingsCreate (input : list string)
| LenSafeEmbeddings (texts : list string) (chunk_size : Z)
| Log (level msg : string).

Definition M (A : Type) : Type := (list event * result A)%type.

Definition ret {A} (a : A) : M A := ([], Ok a).
Definition raise {A} (e : exn) : M A := ([], Raise e).
Definition emit (ev : event) : M unit := ([ev], Ok tt).
Definition lift {A} (r : result A) : M A := ([], r).

Definition bind {A B} (f : A → M B) (m : M A) : M B :=
  match m with
  | (t, Ok a) => let '(t', r) := f a in (t ++ t', r)
  | (t, Raise e) => (t, Raise e)
  end.

#[export] Instance M_ret : MRet M := @ret.
#[export] Instance M_bind : MBind M := @bind.

Definition trace {A} (m : M A) : list event := m.1.
Definition outcome {A} (m : M A) : result A := m.2.

(** [for x in xs: acc = body(acc, x)], stopping at the first exception. *)
Fixpoint for_each {A S} (body : S → A → M S) (xs : list A) (s : S) : M S :=
  match xs with
  | [] => mret s
  | x :: xs' => s' ← body s x; for_each body xs' s'
  end.

(** ** Constants *)

(** Modelled from the spec: [src/constants.py] is not among the sources.
    The field names are the ones the spec gives to the context record
    ([question], [query_variations], [retrieved_messages], [answer]); the
    first and third are also the variables of
    [answer_formulation_template]. [SOURCE] is the key the ingestion script
    writes as the literal ["source"]. *)
Module constants.
Definition QUESTION : string := "question".
Definition QUERY_VARIATIONS : string := "query_variations".
Definition RETRIEVED_MESSAGES : string := "retrieved_messages".
Definition ANSWER : string := "answer".
Definition SOURCE : string := "source".
End constants.
Import constants.

(** ** Context values *)

(** The values found in the context dict threaded through the stages: a
    string, a list, or a document inside a list. The code relies on the
    annotated kind of each field; where a field holds another kind the model
    raises [TypeError]. *)
#[warnings="-register-all"]
Inductive Value : Type :=
| VStr (s : string)
| VDoc (d : Document)
| VList (l : list Value).

Definition as_str (v : Value) : result string :=
  match v with
  | VStr s => Ok s
  | _ => Raise (TypeError "expected str")
  end.

Definition as_doc (v : Value) : result Document :=
  match v with
  | VDoc d => Ok d
  | _ => Raise (TypeError "expected Document")
  end.

Definition as_list (v : Value) : result (list Value) :=
  match v with
  | VList l => Ok l
  | _ => Raise (TypeError "expected list")
  end.

Fixpoint all_ok {A} (rs : list (result A)) : result (list A) :=
  match rs with
  | [] => Ok []
  | Ok a :: rs' =>
      match all_ok rs' with Ok l => Ok (a :: l) | Raise e => Raise e end
  | Raise e :: _ => Raise e
  end.

(** [d.get(key, default)]. *)
Definition dict_get {V} (d : gmap string V) (key : string) (default : V) : V :=
  match d !! key with Some v => v | None => default end.

(** [{key: v, **d}]: [key: v] is written first and the entries of [d]
    follow, so a [key] already in [d] keeps the value it has in [d]. *)
Definition dict_with_first {V} (key : string) (v : V) (d : gmap string V)
  : gmap string V :=
  d ∪ {[ key := v ]}.

(** ** src/runnables/retrieval.py *)

Module MessageRetrieval.

(** A scored candidate [(doc, score)]; lower scores are closer. *)
Abbreviation Scored := (Document * Q)%type.

(** The runnable: the two search entry points of the vector store (the
    collaborator behind [self.vector_store]) and the two settings of
    [__init__]. *)
Record t : Type := mk {
  similarity_search_with_score : string → Z → result (list Scored);
  asimilarity_search_with_score : string → Z → result (list Scored);
  max_returned_search : Z;
  top_k_results : Z
}.

(** [__init__] with its defaults [max_returned_search = 10] and
    [top_k_results = 20]. *)
Definition init (search asearch : string → Z → result (list Scored)) : t :=
  mk search asearch 10 20.

(** [doc.metadata[SOURCE]]. *)
Definition source_of (doc : Document) : result string :=
  match metadata doc !! SOURCE with
  | Some s => Ok s
  | None => Raise (KeyError SOURCE)
  end.

(** Lines 44-49: the deduplication loop, with its two variables
    [seen_sources] and [unique_retrieved_docs]. *)
Fixpoint dedup_loop (docs : list Scored) (seen_sources : gset string)
    (unique_retrieved_docs : list Scored) : result (list Scored) :=
  match docs with
  | [] => Ok unique_retrieved_docs
  | (doc, score) :: rest =>
      match source_of doc with
      | Raise e => Raise e
      | Ok src =>
          if decide (src ∈ seen_sources)
          then dedup_loop rest seen_sources unique_retrieved_docs
          else dedup_loop rest ({[ src ]} ∪ seen_sources)
                 (unique_retrieved_docs ++ [(doc, score)])
      end
  end.

Definition unique_retrieved_docs (all_retrieved_docs : list Scored)
  : result (list Scored) :=
  dedup_loop all_retrieved_docs ∅ [].

(** [a < b] on scores, the only comparison [list.sort] makes. *)
Definition score_lt (a b : Q) : bool := negb (Qle_bool b a).

(** [list.sort(key=lambda x: x[1])] is a stable sort. It is modelled as
    the straight insertion sort: each element goes behind every element
    already placed whose key is not greater. *)
Fixpoint insert_by_score (x : Scored) (sorted : list Scored) : list Scored :=
  match sorted with
  | [] => [x]
  | y :: rest =>
      if score_lt x.2 y.2 then x :: y :: rest
      else y :: insert_by_score x rest
  end.

Definition sort_by_score (l : list Scored) : list Scored :=
  foldl (λ sorted x, insert_by_score x sorted) [] l.

(** The slice [l[:k]]: a negative [k] counts from the end. *)
Definition slice_to {A} (k : Z) (l : list A) : list A :=
  if (0 <=? k)%Z then take (Z.to_nat k) l
  else take (length l - Z.to_nat (- k)) l.

(** [_process_documents]. [RetrievalOutput(...)] validates a list of
    documents and hands it back. *)
Definition _process_documents (self : t) (all_retrieved_docs : list Scored)
  : result (list Document) :=
  match unique_retrieved_docs all_retrieved_docs with
  | Raise e => Raise e
  | Ok unique =>
      let sorted := sort_by_score unique in
      let top_docs := slice_to (top_k_results self) sorted in
      Ok (top_docs.*1)
  end.

(** The body of the [for query in query_variations] loop. *)
Definition search_step (search : string → Z → result (list Scored)) (k : Z)
    (all_retrieved_docs : list Scored) (query : Value) : M (list Scored) :=
  q ← lift (as_str query);
  emit (SimilaritySearch q k);;
  docs ← lift (search q k);
  mret (all_retrieved_docs ++ docs).

Definition invoke (self : t) (input_ : gmap string Value)
  : M (gmap string Value) :=
  query_variations ← lift (as_list (dict_get input_ QUERY_VARIATIONS (VList [])));
  all_retrieved_docs ←
    for_each (search_step (similarity_search_with_score self)
                (max_returned_search self)) query_variations [];
  retrieved ← lift (_process_documents self all_retrieved_docs);
  mret (dict_with_first RETRIEVED_MESSAGES (VList (VDoc <$> retrieved)) input_).

(** [ainvoke] awaits each search in turn; the rest is the same code. *)
Definition ainvoke (self : t) (input_ : gmap string Value)
  : M (gmap string Value) :=
  query_variations ← lift (as_list (dict_get input_ QUERY_VARIATIONS (VList [])));
  all_retrieved_docs ←
    for_each (search_step (asimilarity_search_with_score self)
                (max_returned_search self)) query_variations [];
  retrieved ← lift (_process_documents self all_retrieved_docs);
  mret (dict_with_first RETRIEVED_MESSAGES (VList (VDoc <$> retrieved)) input_).

End MessageRetrieval.

(** ** src/prompts.py *)

Module prompts.

Definition nl : string := String "010"%char EmptyString.
Definition dq : string := String "034"%char EmptyString.

Definition query_variation_prompt : string :=
  "You are a helpful assistant that generates variations of " +:+
  "search queries for a chat application." +:+ nl +:+
  nl +:+
  "Your goal is to help a user find a specific message they're looking for. " +:+
  "The user will provide a query or a question describing the message they want to find, " +:+
  "and you will generate a list of phrases, statements or sentences that the user might have actually written in the past." +:+ nl +:+
  nl +:+
  "Here are the rules you must follow:" +:+ nl +:+
  "1.  Generate diverse statements that sound like they were sent by a real person." +:+ nl +:+
  "2.  The messages should be different from the original user prompt." +:+ nl +:+
  "3.  Each variation must be a single sentence or phrase." +:+ nl +:+
  "4.  Queries should not be overly generic (e.g., " +:+ dq +:+ "Paris trip" +:+ dq +:+ " is too generic; " +:+
  dq +:+ "Eiffel Tower was stunning when we visited Paris" +:+ dq +:+ " is better)." +:+ nl +:+
  "5.  Queries must be written in the same language as the user's request." +:+ nl +:+
  "6.  If the user's prompt contains vulgar language, you should include it in the generated statements." +:+ nl +:+
  "7.  If the user's prompt is nonsensical or empty, just return an empty list." +:+ nl +:+
  "8.  Focus on generating statements or affirmative sentences rather than questions." +:+ nl +:+
  "9.  If the user's prompt is a question, generate statements that could answer that question." +:+ nl +:+
  nl +:+
  "**Examples:**" +:+ nl +:+
  nl +:+
  "**User query:** " +:+ dq +:+ "Looking for messages about our trip to Paris" +:+ dq +:+ nl +:+
  "**Query variations:**" +:+ nl +:+
  "1.  " +:+ dq +:+ "We're going to Paris next summer, can't wait!" +:+ dq +:+ nl +:+
  "2.  " +:+ dq +:+ "Remember our amazing vacation in Paris?" +:+ dq +:+ nl +:+
  "3.  " +:+ dq +:+ "The Eiffel Tower was stunning when we visited Paris." +:+ dq +:+ nl +:+
  "4.  " +:+ dq +:+ "We're heading towards the Eiffel Tower." +:+ dq +:+ nl +:+
  nl +:+
  "**User query:** " +:+ dq +:+ "Where did I have that horrible accident?" +:+ dq +:+ nl +:+
  "**Query variations:**" +:+ nl +:+
  "1.  " +:+ dq +:+ "You won't believe the terrible accident I had today." +:+ dq +:+ nl +:+
  "2.  " +:+ dq +:+ "I can't stop thinking about that awful accident." +:+ dq +:+ nl +:+
  "3.  " +:+ dq +:+ "I'm dealing with the aftermath of a bad accident." +:+ dq +:+ nl +:+
  "4.  " +:+ dq +:+ "I need to talk about that terrible accident I experienced." +:+ dq +:+ nl +:+
  nl +:+
  "**User query:** " +:+ dq +:+ "How much money did she get on her 18th birthday?" +:+ dq +:+ nl +:+
  "**Query variations:**" +:+ nl +:+
  "1.  " +:+ dq +:+ "I got 1000 zł for my 18th birthday from my grandparents." +:+ dq +:+ nl +:+
  "2.  " +:+ dq +:+ "I think I received around 4000 zł for my 18th birthday." +:+ dq +:+ nl +:+
  "3.  " +:+ dq +:+ "My parents gave me a 1000 zł for my 18th birthday." +:+ dq +:+ nl +:+
  "4.  " +:+ dq +:+ "I can't remember exactly how much money I got for my 18th birthday" +:+ dq +:+ nl.

Definition answer_formulation_prompt : string :=
  "You are a helpful assistant that answers questions based on the provided context from a chat history. " +:+
  "Use the context to provide accurate and relevant answers. " +:+
  "If the context does not contain enough information to answer the question, respond with " +:+
  "'I'm sorry, but I don't have enough information to answer that question.' " +:+
  "Be concise and to the point in your responses.".

(** An f-string style template: literal text and [{name}] fields. *)
Inductive segment : Type :=
| Lit (text : string)
| Field (name : string).

(** ["Question: {question}\nMessages: {retrieved_messages}"]. *)
Definition answer_formulation_template : list segment :=
  [Lit "Question: "; Field "question"; Lit (nl +:+ "Messages: ");
   Field "retrieved_messages"].

(** Formatting a template with a dict of variables; a field without a
    variable raises [KeyError]. *)
Fixpoint format (template : list segment) (vars : gmap string string)
  : result string :=
  match template with
  | [] => Ok EmptyString
  | Lit text :: rest =>
      match format rest vars with
      | Ok s => Ok (text +:+ s)
      | Raise e => Raise e
      end
  | Field name :: rest =>
      match vars !! name with
      | None => Raise (KeyError name)
      | Some v =>
          match format rest vars with
          | Ok s => Ok (v +:+ s)
          | Raise e => Raise e
          end
      end
  end.

End prompts.

(** ** src/runnables/query_variation.py *)

Module QueryVariation.

Record QueryVariationOutput : Type := mkOutput {
  query_variations : list string
}.

(** The runnable holds the chat model. [structured_invoke] is
    [llm_instance.with_structured_output(schema=QueryVariationOutput).invoke]:
    it returns an instance of the schema, or raises when the endpoint
    cannot be reached or the reply does not fit the schema.
    [structured_ainvoke] is its awaited form. *)
Record t : Type := mk {
  structured_invoke : list Message → result QueryVariationOutput;
  structured_ainvoke : list Message → result QueryVariationOutput
}.

Definition invoke (self : t) (input_ : gmap string Value)
  : M (gmap string Value) :=
  query ← lift (as_str (dict_get input_ QUESTION (VStr EmptyString)));
  let messages :=
    [SystemMessage prompts.query_variation_prompt; HumanMessage query] in
  emit (ChatInvoke "QueryVariationOutput" messages);;
  response ← lift (structured_invoke self messages);
  mret (dict_with_first QUERY_VARIATIONS
          (VList (VStr <$> query_variations response)) input_).

Definition ainvoke (self : t) (input_ : gmap string Value)
  : M (gmap string Value) :=
  query ← lift (as_str (dict_get input_ QUESTION (VStr EmptyString)));
  let messages :=
    [SystemMessage prompts.query_variation_prompt; HumanMessage query] in
  emit (ChatInvoke "QueryVariationOutput" messages);;
  response ← lift (structured_ainvoke self messages);
  mret (dict_with_first QUERY_VARIATIONS
          (VList (VStr <$> query_variations response)) input_).

End QueryVariation.

(** ** src/runnables/answer.py *)

Module FormulateAnswer.

Record FormulatedAnswerOutput : Type := mkOutput {
  answer : string
}.

Record t : Type := mk {
  structured_invoke : list Message → result FormulatedAnswerOutput
}.

(** [sep.join(parts)]. *)
Fixpoint str_join (sep : string) (parts : list string) : string :=
  match parts with
  | [] => EmptyString
  | [p] => p
  | p :: rest => p +:+ sep +:+ str_join sep rest
  end.

(** [messages_template | structured_llm] invoked on a dict: the system
    message is fixed, the human message is the formatted template. *)
Definition chain_invoke (self : t) (vars : gmap string string)
  : M FormulatedAnswerOutput :=
  human ← lift (prompts.format prompts.answer_formulation_template vars);
  let messages :=
    [SystemMessage prompts.answer_formulation_prompt; HumanMessage human] in
  emit (ChatInvoke "FormulatedAnswerOutput" messages);;
  lift (structured_invoke self messages).

Definition invoke (self : t) (input_ : gmap string Value)
  : M (gmap string Value) :=
  retrieved_messages ←
    lift (as_list (dict_get input_ RETRIEVED_MESSAGES (VList [])));
  question ← lift (as_str (dict_get input_ QUESTION (VStr EmptyString)));
  docs ← lift (all_ok (as_doc <$> retrieved_messages));
  let messages_content := str_join prompts.nl (page_content <$> docs) in
  response ←
    chain_invoke self
      (<[ RETRIEVED_MESSAGES := messages_content ]>
         {[ QUESTION := question ]});
  mret (dict_with_first ANSWER (VStr (answer response)) input_).

End FormulateAnswer.

(** ** src/embeddings/nomic.py *)

Module NomicEmbeddings.

Abbreviation Vector := (list Q).

(** The inherited [OpenAIEmbeddings] state the wrapper reads, and the
    four inherited entry points it calls. [client_create input] is
    [self.client.create(input=input, **client_kwargs)] followed by the
    extraction of [r["embedding"]] for each [r] of [response["data"]]. *)
Record t : Type := mk {
  chunk_size : Z;
  check_embedding_ctx_length : bool;
  client_create : list string → result (list Vector);
  async_client_create : list string → result (list Vector);
  _get_len_safe_embeddings : list string → Z → result (list Vector);
  _aget_len_safe_embeddings : list string → Z → result (list Vector)
}.

Definition _prefixed (texts : list string) (prefix : string) : list string :=
  (λ t, prefix +:+ t) <$> texts.

(** [chunk_size or self.chunk_size]: [None] and [0] are falsy. *)
Definition effective_chunk_size (self : t) (chunk_size_arg : option Z) : Z :=
  match chunk_size_arg with
  | Some c => if (c =? 0)%Z then chunk_size self else c
  | None => chunk_size self
  end.

(** [range(start, stop, step)] as a list. *)
Definition py_range (start stop step : Z) : result (list Z) :=
  if (step =? 0)%Z then Raise (ValueError "range() arg 3 must not be zero")
  else
    let n :=
      if (0 <? step)%Z
      then (if (start <? stop)%Z then (stop - start - 1) / step + 1 else 0)%Z
      else (if (stop <? start)%Z then (start - stop - 1) / (- step) + 1 else 0)%Z
    in
    Ok ((λ j : nat, (start + Z.of_nat j * step)%Z) <$> seq 0 (Z.to_nat n)).

(** [l[i:j]] for [0 <= i <= j], the only slices the chunk loop takes. *)
Definition slice {A} (i j : Z) (l : list A) : list A :=
  take (Z.to_nat (j - i)) (drop (Z.to_nat i) l).

(** The body of the chunk loop, for either client. *)
Definition create_step (create : list string → result (list Vector))
    (prefixed_texts : list string) (chunk_size_ : Z)
    (embeddings : list Vector) (i : Z) : M (list Vector) :=
  let input := slice i (i + chunk_size_) prefixed_texts in
  emit (EmbeddingsCreate input);;
  data ← lift (create input);
  mret (embeddings ++ data).

Definition embed_documents (self : t) (texts : list string)
    (chunk_size_arg : option Z) : M (list Vector) :=
  let chunk_size_ := effective_chunk_size self chunk_size_arg in
  let prefixed_texts := _prefixed texts "search_document: " in
  if negb (check_embedding_ctx_length self) then
    starts ← lift (py_range 0 (Z.of_nat (length prefixed_texts)) chunk_size_);
    for_each (create_step (client_create self) prefixed_texts chunk_size_)
      starts []
  else
    emit (LenSafeEmbeddings prefixed_texts chunk_size_);;
    lift (_get_len_safe_embeddings self prefixed_texts chunk_size_).

Definition aembed_documents (self : t) (texts : list string)
    (chunk_size_arg : option Z) : M (list Vector) :=
  let chunk_size_ := effective_chunk_size self chunk_size_arg in
  let prefixed_texts := _prefixed texts "search_document: " in
  if negb (check_embedding_ctx_length self) then
    starts ← lift (py_range 0 (Z.of_nat (length prefixed_texts)) chunk_size_);
    for_each (create_step (async_client_create self) prefixed_texts chunk_size_)
      starts []
  else
    emit (LenSafeEmbeddings prefixed_texts chunk_size_);;
    lift (_aget_len_safe_embeddings self prefixed_texts chunk_size_).

(** [l[0]]. *)
Definition getitem0 {A} (l : list A) : result A :=
  match l with
  | x :: _ => Ok x
  | [] => Raise (IndexError "list index out of range")
  end.

(** [embed_query]; [chunk_size_arg] is the [chunk_size] entry of
    [**kwargs], if any, which is passed on to [embed_documents]. *)
Definition embed_query (self : t) (text : string)
    (chunk_size_arg : option Z) : M Vector :=
  let prefixed := _prefixed [text] "search_query: " in
  embeddings ← embed_documents self prefixed chunk_size_arg;
  lift (getitem0 embeddings).

Definition aembed_query (self : t) (text : string)
    (chunk_size_arg : option Z) : M Vector :=
  let prefixed := _prefixed [text] "search_query: " in
  embeddings ← aembed_documents self prefixed chunk_size_arg;
  lift (getitem0 embeddings).

(** The texts an event hands to the embedding endpoint. *)
Definition sent_texts (ev : event) : list string :=
  match ev with
  | EmbeddingsCreate input => input
  | LenSafeEmbeddings texts _ => texts
  | _ => []
  end.

End NomicEmbeddings.

(** ** src/loaders/messenger_loader.py *)

Module MetaMessengerLoader.

(** The loader and the file system it walks. Paths are their string
    form. [joinpath d s] is [d / s]; [exists_], [glob_json] (the list of
    [dir_path.glob("**/*.json")]) and [is_file] are the [pathlib] calls.
    [_parse_file] opens and decodes one export file and builds its
    document: it logs, and raises [JSONDecodeError] on malformed JSON and
    other exceptions on unreadable files or missing fields. *)
Record t : Type := mk {
  data_dir : string;
  allowed_dirs : list string;
  joinpath : string → string → string;
  exists_ : string → bool;
  glob_json : string → list string;
  is_file : string → bool;
  _parse_file : string → M Document
}.

(** The default of [allowed_dirs], as the docstring of [__init__] gives
    it. *)
Definition default_allowed_dirs : list string :=
  ["inbox"; "archived_threads"; "e2ee_cutover"; "filtered_threads"].

(** [try: body except json.JSONDecodeError as e: h1(e) except Exception
    as e: h2(e)]: what [body] did before raising stays done. *)
Definition try_except {A} (body : M A) (handler : exn → M A) : M A :=
  match body with
  | (t, Ok a) => (t, Ok a)
  | (t, Raise e) => let '(t', r) := handler e in (t ++ t', r)
  end.

(** One iteration of [for file_path in file_paths]; [yielded] is the
    list of documents yielded so far. *)
Definition file_step (self : t) (yielded : list Document)
    (file_path : string) : M (list Document) :=
  if is_file self file_path then
    try_except
      (doc ← _parse_file self file_path; mret (yielded ++ [doc]))
      (λ e,
         match e with
         | JSONDecodeError _ =>
             emit (Log "ERROR"
                     ("Failed to parse " +:+ file_path +:+ ": " +:+ exn_str e));;
             mret yielded
         | _ =>
             emit (Log "ERROR"
                     ("Unexpected error while processing " +:+ file_path
                      +:+ ": " +:+ exn_str e));;
             mret yielded
         end)
  else
    emit (Log "WARNING" ("Skipping non-file path: " +:+ file_path));;
    mret yielded.

(** One iteration of [for allowed_dir in self.allowed_dirs]. *)
Definition dir_step (self : t) (yielded : list Document)
    (allowed_dir : string) : M (list Document) :=
  let dir_path := joinpath self (data_dir self) allowed_dir in
  if negb (exists_ self dir_path) then
    emit (Log "WARNING" ("Directory " +:+ dir_path +:+ " does not exist."));;
    mret yielded
  else
    emit (Log "INFO" ("Searching for JSON files in " +:+ dir_path));;
    let file_paths := glob_json self dir_path in
    match file_paths with
    | [] =>
        emit (Log "WARNING" ("No JSON files found in " +:+ dir_path +:+ "."));;
        mret yielded
    | _ => for_each (file_step self) file_paths yielded
    end.

(** [lazy_load], run to exhaustion: the documents yielded, in order. *)
Definition lazy_load (self : t) : M (list Document) :=
  for_each (dir_step self) (allowed_dirs self) [].

(** [BaseLoader.load] is [list(self.lazy_load())]. *)
Definition load (self : t) : M (list Document) := lazy_load self.

End MetaMessengerLoader.

(** ** ingestion.py *)

Module ingestion.

(** [str(i)] for a non-negative [int]. *)
Definition str_nat (i : nat) : string :=
  NilEmpty.string_of_uint (Nat.to_uint i).

(** A chunk as the script sees it: its text and a reference to its
    metadata dict. The dicts live in a store so that the in-place
    assignment [text.metadata["source"] = ...] and any sharing of one dict
    between chunks are visible. *)
Record Chunk : Type := mkChunk {
  chunk_text : string;
  metadata_ref : nat
}.

Abbreviation Store := (gmap nat (gmap string string)).

(** The dict a reference points to. Every reference held by a chunk is
    allocated; the empty dict stands in for the others. *)
Definition deref (store : Store) (r : nat) : gmap string string :=
  default ∅ (store !! r).

Section assign.
(** The metadata key of the conversation id, from the missing
    [src/constants.py]. *)
Variable CHAT_ID : string.

(** [text.metadata["source"] = f"{text.metadata.get(CHAT_ID, 'blank')}-{i}"]. *)
Definition assign_source (i : nat) (text : Chunk) (store : Store) : Store :=
  let md := deref store (metadata_ref text) in
  <[ metadata_ref text :=
       <[ "source" := dict_get md CHAT_ID "blank" +:+ "-" +:+ str_nat i ]> md ]>
    store.

(** [for i, text in enumerate(texts): ...], from index [i] on. *)
Fixpoint assign_sources_from (i : nat) (texts : list Chunk) (store : Store)
  : Store :=
  match texts with
  | [] => store
  | text :: rest => assign_sources_from (S i) rest (assign_source i text store)
  end.

Definition assign_sources (texts : list Chunk) (store : Store) : Store :=
  assign_sources_from 0 texts store.

(** The conversation id a chunk carries, with the script's default. *)
Definition conversation_id (store : Store) (text : Chunk) : string :=
  dict_get (deref store (metadata_ref text)) CHAT_ID "blank".

(** The [source] a chunk ends up with. *)
Definition source_id (store : Store) (text : Chunk) : option string :=
  deref store (metadata_ref text) !! "source".

(** The position of chunk [j] among the chunks of its own conversation:
    the number of earlier chunks with the same conversation id. *)
Definition index_in_conversation (store : Store) (texts : list Chunk)
    (j : nat) : nat :=
  match texts !! j with
  | None => 0
  | Some text =>
      length (filter (λ t, conversation_id store t = conversation_id store text)
                (take j texts))
  end.
End assign.

End ingestion.

(** * Vocabulary of the properties *)

(** ** Retrieval *)

Section retrieval_vocabulary.
Import MessageRetrieval.

(** The source of a scored candidate, if it has one. *)
Definition src (x : Scored) : option string := metadata x.1 !! SOURCE.

(** The candidates that are first to show their source, given the sources
    already seen: the loop of [_process_documents] without its failure. *)
Fixpoint first_seen_from (docs : list Scored) (seen : gset string)
  : list Scored :=
  match docs with
  | [] => []
  | x :: rest =>
      match src x with
      | Some s =>
          if decide (s ∈ seen) then first_seen_from rest seen
          else x :: first_seen_from rest ({[ s ]} ∪ seen)
      | None => first_seen_from rest seen
      end
  end.

(** The sources of a list of candidates, as a set. *)
Definition sources (docs : list Scored) : gset string :=
  list_to_set (omap src docs).

(** [x] is the first candidate of [pool] to carry its source. *)
Definition first_occurrence (pool : list Scored) (x : Scored) : Prop :=
  ∃ pre post s,
    pool = pre ++ x :: post ∧ src x = Some s ∧ (∀ y, y ∈ pre → src y ≠ Some s).

(** The score [_process_documents] keeps for a document: the score of the
    first candidate of the pool with the document's source. *)
Definition kept_score (pool : list Scored) (d : Document) : option Q :=
  match metadata d !! SOURCE with
  | Some s => snd <$> List.find (λ x, bool_decide (src x = Some s)) pool
  | None => None
  end.

Definition min_score (scores : list Q) : option Q :=
  foldr (λ q acc,
           match acc with
           | None => Some q
           | Some m => Some (if Qle_bool q m then q else m)
           end) None scores.

(** The best score of a document: the lowest score among all candidates
    of the pool with the document's source. *)
Definition best_score (pool : list Scored) (d : Document) : option Q :=
  match metadata d !! SOURCE with
  | Some s => min_score (filter (λ x, src x = Some s) pool).*2
  | None => None
  end.

(** [out] is in ascending order of the score [key] gives each document. *)
Definition ordered_by (key : Document → option Q) (out : list Document)
  : Prop :=
  StronglySorted
    (λ d1 d2, ∃ s1 s2, key d1 = Some s1 ∧ key d2 = Some s2 ∧ (s1 <= s2)%Q)
    out.

(** The pool [invoke] builds: the results of the searches, in the order of
    the queries. *)
Definition pool_of (search : string → Z → result (list Scored)) (k : Z)
    (queries : list string) : list Scored :=
  concat ((λ q, match search q k with Ok docs => docs | Raise _ => [] end)
            <$> queries).

(** Ascending order of the scores of two candidates. *)
Definition score_le (a b : Scored) : Prop := (a.2 <= b.2)%Q.

(** The number of documents left by the slice [[:k]] of a list of [n]. *)
Definition slice_to_length (k : Z) (n : nat) : nat :=
  if (0 <=? k)%Z then Nat.min (Z.to_nat k) n else n - Z.to_nat (- k).

(** The candidates of [l] whose score equals [s]. *)
Definition with_score (s : Q) (l : list Scored) : list Scored :=
  filter (λ x, Qeq_bool x.2 s = true) l.

End retrieval_vocabulary.

(** ** The pipeline stages *)

(** [out] holds every entry of [input_] as it was, and its keys are those
    of [input_] together with [key]. *)
Definition adds_only (key : string) (input_ out : gmap string Value) : Prop :=
  input_ ⊆ out ∧ dom out = {[ key ]} ∪ dom input_.

(** The call to the chat model on [messages] fails with [e]: the endpoint
    could not be reached, or its reply did not fit the schema. This is what
    the specification names a generation failure; the code has no exception
    class of its own for it. *)
Definition GenerationFailure {A} (gateway : list Message → result A)
    (messages : list Message) (e : exn) : Prop :=
  gateway messages = Raise e.

(** The sentence the system prompt of the answer stage asks the model to
    reply with when the context is not enough. *)
Definition refusal_sentence : string :=
  "I'm sorry, but I don't have enough information to answer that question.".

(** The messages the answer stage sends for question [q] and context blob
    [messages_content]. *)
Definition answer_messages (q messages_content : string) : list Message :=
  [SystemMessage prompts.answer_formulation_prompt;
   HumanMessage ("Question: " +:+ q +:+ prompts.nl +:+ "Messages: "
                 +:+ messages_content)].

(** ** Ingestion *)

(** Whether character [c] occurs in [s]. *)
Fixpoint contains (c : ascii) (s : string) : bool :=
  match s with
  | EmptyString => false
  | String a rest => if decide (a = c) then true else contains c rest
  end.

(** ** The loader *)

Section loader_vocabulary.
Import MetaMessengerLoader.

(** The paths [lazy_load] visits under one allowed directory. *)
Definition dir_files (self : t) (allowed_dir : string) : list string :=
  let dir_path := joinpath self (data_dir self) allowed_dir in
  if exists_ self dir_path then glob_json self dir_path else [].

(** All the paths [lazy_load] visits, in order. *)
Definition files_of (self : t) : list string :=
  concat (dir_files self <$> allowed_dirs self).

(** What one path contributes: its document if it is a file that parses,
    nothing otherwise. *)
Definition parsed (self : t) (file_path : string) : list Document :=
  if is_file self file_path then
    match outcome (_parse_file self file_path) with
    | Ok doc => [doc]
    | Raise _ => []
    end
  else [].

(** The documents of all the files that parse. *)
Definition loaded (self : t) : list Document :=
  concat (parsed self <$> files_of self).

(** The line logged for a file whose parsing raised [e]. *)
Definition error_line (file_path : string) (e : exn) : event :=
  match e with
  | JSONDecodeError _ =>
      Log "ERROR" ("Failed to parse " +:+ file_path +:+ ": " +:+ exn_str e)
  | _ =>
      Log "ERROR" ("Unexpected error while processing " +:+ file_path
                   +:+ ": " +:+ exn_str e)
  end.

(** The same loader with another parser. *)
Definition with_parser (self : t) (parse : string → M Document) : t :=
  mk (data_dir self) (allowed_dirs self) (joinpath self) (exists_ self)
    (glob_json self) (is_file self) parse.

(** The warning logged for an allowed directory that does not exist. *)
Definition missing_directory_line (self : t) (allowed_dir : string) : event :=
  Log "WARNING"
    ("Directory " +:+ joinpath self (data_dir self) allowed_dir
     +:+ " does not exist.").

End loader_vocabulary.

(** ** Sample data *)

Module samples.
Import MessageRetrieval.

Definition docX : Document := mkDocument "x" {[ SOURCE := "conv1-4" ]}.
Definition docY : Document := mkDocument "y" {[ SOURCE := "conv1-7" ]}.

(** Query ["a"] finds [docX] at distance 0.9, query ["b"] finds the same
    [docX] at distance 0.1. *)
Definition search_ab (query : string) (k : Z) : result (list Scored) :=
  if decide (query = "a") then Ok [(docX, 9 # 10)]
  else if decide (query = "b") then Ok [(docX, 1 # 10)]
  else Ok [].

Definition retrieval_ab : t := init search_ab search_ab.

Definition context_ab : gmap string Value :=
  <[ QUERY_VARIATIONS := VList [VStr "a"; VStr "b"] ]>
    {[ QUESTION := VStr "where?" ]}.

(** A pool in which [docX] comes back twice, the second time closer. *)
Definition pool_xyx : list Scored :=
  [(docX, 9 # 10); (docY, 5 # 10); (docX, 1 # 10)].

Definition context_question : gmap string Value :=
  {[ QUESTION := VStr "where?" ]}.

(** A chat model that answers every expansion request with one
    statement, and one that cannot be reached. *)
Definition expansion_ok : QueryVariation.t :=
  QueryVariation.mk
    (λ _, Ok (QueryVariation.mkOutput ["I bought a ring yesterday."]))
    (λ _, Ok (QueryVariation.mkOutput ["I bought a ring yesterday."])).

Definition connection_error : exn :=
  ExternalError "APIConnectionError" "Connection error.".

Definition expansion_down : QueryVariation.t :=
  QueryVariation.mk (λ _, Raise connection_error) (λ _, Raise connection_error).

(** A chat model that answers ["42"] whatever it is sent. *)
Definition answer_42 : FormulateAnswer.t :=
  FormulateAnswer.mk (λ _, Ok (FormulateAnswer.mkOutput "42")).

(** A context in which retrieval found nothing. *)
Definition context_nothing_found : gmap string Value :=
  <[ RETRIEVED_MESSAGES := VList [] ]>
    (<[ QUERY_VARIATIONS := VList [] ]> {[ QUESTION := VStr "where?" ]}).

(** Two conversations of one chunk each, every chunk with a metadata
    dict of its own. *)
Definition chat_id_key : string := "chat_id".

Definition two_chunks : list ingestion.Chunk :=
  [ingestion.mkChunk "hello" 0; ingestion.mkChunk "bye" 1].

Definition two_dicts : gmap nat (gmap string string) :=
  <[ 1%nat := {[ chat_id_key := "B" ]} ]> {[ 0%nat := {[ chat_id_key := "A" ]} ]}.

(** The same two chunks sharing one metadata dict. *)
Definition two_chunks_shared : list ingestion.Chunk :=
  [ingestion.mkChunk "hello" 0; ingestion.mkChunk "bye" 0].

(** An export directory with a malformed file followed by a good one. *)
Definition good_document : Document :=
  mkDocument "Ann (2024-01-01 10:00:00): hi" {[ chat_id_key := "B" ]}.

Definition bad_json : exn :=
  JSONDecodeError "Expecting value: line 1 column 1 (char 0)".

Definition loader_bad_then_good : MetaMessengerLoader.t :=
  MetaMessengerLoader.mk "mb" ["inbox"]
    (λ d s, d +:+ "/" +:+ s)
    (λ _, true)
    (λ _, ["mb/inbox/a/message_1.json"; "mb/inbox/b/message_1.json"])
    (λ _, true)
    (λ p, if decide (p = "mb/inbox/a/message_1.json")
          then ([Log "INFO" ("Parsing file " +:+ p)], Raise bad_json)
          else ([Log "INFO" ("Parsing file " +:+ p)], Ok good_document)).
End samples.

(** * More of the code *)

(** ** src/loaders/utils.py *)

Module loaders_utils.

(** What [json.load] returns. A dict is the list of its items in the order
    of the file, without repeated keys. A float is kept as its text. *)
#[warnings="-register-all"]
Inductive JSON : Type :=
| JNull
| JBool (b : bool)
| JInt (n : Z)
| JFloat (text : string)
| JStr (s : string)
| JList (elements : list JSON)
| JDict (items : list (string * JSON)).

(** The name of the Python type of a value, as error messages give it. *)
Definition type_name (v : JSON) : string :=
  match v with
  | JNull => "NoneType"
  | JBool _ => "bool"
  | JInt _ => "int"
  | JFloat _ => "float"
  | JStr _ => "str"
  | JList _ => "list"
  | JDict _ => "dict"
  end.

(** [AttributeError] and [UnicodeDecodeError], by the name of their class. *)
Definition AttributeError (v : JSON) (attribute : string) : exn :=
  ExternalError "AttributeError"
    ("'" +:+ type_name v +:+ "' object has no attribute '" +:+ attribute +:+ "'").

(** [items.get(key)] on the items of a dict. *)
Fixpoint lookup_item (items : list (string * JSON)) (key : string)
  : option JSON :=
  match items with
  | [] => None
  | (k, v) :: rest => if decide (k = key) then Some v else lookup_item rest key
  end.

(** [d.get(key, default)] and [d[key]] for a dict [d]. *)
Definition get (items : list (string * JSON)) (key : string) (default : JSON)
  : JSON :=
  match lookup_item items key with Some v => v | None => default end.

Definition getitem (items : list (string * JSON)) (key : string) : result JSON :=
  match lookup_item items key with
  | Some v => Ok v
  | None => Raise (KeyError key)
  end.

(** *** Bytes *)

Definition byte_value (a : ascii) : N := N_of_ascii a.

(** A byte below 0x80: an ASCII character, on its own in UTF-8. *)
Definition is_ascii_byte (a : ascii) : bool := (byte_value a <? 128)%N.

Definition in_range (lo hi : N) (a : ascii) : bool :=
  (lo <=? byte_value a)%N && (byte_value a <=? hi)%N.

(** A UTF-8 continuation byte, 0x80 to 0xBF. *)
Definition is_continuation (a : ascii) : bool := in_range 128 191 a.

(** [content.encode('latin1')] on the UTF-8 bytes of [content]: the byte of
    each character, or [None] when a character lies above U+00FF (the codec
    raises [UnicodeEncodeError]). Characters up to U+007F are one byte;
    U+0080 to U+00BF are 0xC2 and the byte itself; U+00C0 to U+00FF are 0xC3
    and the byte less 0x40. *)
Fixpoint latin1_encode (content : string) : option string :=
  match content with
  | EmptyString => Some EmptyString
  | String a rest =>
      if is_ascii_byte a then String a <$> latin1_encode rest
      else
        match rest with
        | String c rest' =>
            if is_continuation c then
              if (byte_value a =? 194)%N
              then String c <$> latin1_encode rest'
              else if (byte_value a =? 195)%N
              then String (ascii_of_N (byte_value c + 64)) <$> latin1_encode rest'
              else None
            else None
        | EmptyString => None
        end
  end.

(** Whether bytes are well-formed UTF-8, as the strict decoder of
    [bytes.decode('utf-8')] requires: shortest forms only, no surrogates,
    nothing above U+10FFFF. *)
Fixpoint utf8_valid (bytes : string) : bool :=
  match bytes with
  | EmptyString => true
  | String a rest =>
      if is_ascii_byte a then utf8_valid rest
      else if in_range 194 223 a then
        match rest with
        | String b r1 => is_continuation b && utf8_valid r1
        | _ => false
        end
      else if in_range 224 239 a then
        match rest with
        | String b (String c r2) =>
            (if (byte_value a =? 224)%N then in_range 160 191 b
             else if (byte_value a =? 237)%N then in_range 128 159 b
             else is_continuation b)
            && is_continuation c && utf8_valid r2
        | _ => false
        end
      else if in_range 240 244 a then
        match rest with
        | String b (String c (String d r3)) =>
            (if (byte_value a =? 240)%N then in_range 144 191 b
             else if (byte_value a =? 244)%N then in_range 128 143 b
             else is_continuation b)
            && is_continuation c && is_continuation d && utf8_valid r3
        | _ => false
        end
      else false
  end.

(** What the interpreter and the standard library do, as far as the code
    relies on it without fixing it: the text of a [UnicodeDecodeError] for
    given bytes; [int(s)] ([None] for [ValueError]);
    [datetime.fromtimestamp(t / 1000.0).strftime("%Y-%m-%d %H:%M:%S")] in the
    local time zone, for a value that is not a [str]; [str(v)] and [repr(v)]
    of a value. *)
Record Python : Type := mkPython {
  decode_error_message : string → string;
  py_int : string → option Z;
  format_local_time : JSON → result string;
  py_str : JSON → string;
  py_repr : JSON → string
}.

(** The keys of the export, from the missing [src/constants.py]. *)
Record Keys : Type := mkKeys {
  MESSAGES : string;
  SENDER_NAME : string;
  TIMESTAMP : string;
  CONTENT : string;
  PHOTOS : string;
  URI : string;
  THREAD_PATH : string;
  CHAT_ID : string;
  TITLE : string;
  NO_TITLE : string;
  PARTICIPANTS : string
}.

Definition UnicodeDecodeError (py : Python) (bytes : string) : exn :=
  ExternalError "UnicodeDecodeError" (decode_error_message py bytes).

(** [get_decoded_content] on a [str]. Only [UnicodeEncodeError] is caught:
    bytes that are not UTF-8 make [decode] raise. *)
Definition decode_str (py : Python) (content : string) : result string :=
  match latin1_encode content with
  | Some bytes =>
      if utf8_valid bytes then Ok bytes else Raise (UnicodeDecodeError py bytes)
  | None => Ok content
  end.

(** [get_decoded_content] on any value read from the export. *)
Definition get_decoded_content (py : Python) (content : JSON) : result string :=
  match content with
  | JStr s => decode_str py s
  | _ => Raise (AttributeError content "encode")
  end.

(** [convert_timestamp_to_datetime]. *)
Definition convert_timestamp_to_datetime (py : Python) (timestamp : JSON)
  : result string :=
  match timestamp with
  | JStr s =>
      match py_int py s with
      | None => Ok "Invalid Timestamp"
      | Some n => format_local_time py (JInt n)
      end
  | _ => format_local_time py timestamp
  end.

(** *** Chat ids *)

(** The part of [s] after the last [c], if [c] occurs. *)
Fixpoint after_last (c : ascii) (s : string) : option string :=
  match s with
  | EmptyString => None
  | String a rest =>
      match after_last c rest with
      | Some tail => Some tail
      | None => if decide (a = c) then Some rest else None
      end
  end.

(** The part of [s] after the first [c], if [c] occurs. *)
Fixpoint after_first (c : ascii) (s : string) : option string :=
  match s with
  | EmptyString => None
  | String a rest => if decide (a = c) then Some rest else after_first c rest
  end.

(** [extract_chat_id]. [thread_path.rsplit("/", 1)] has two parts only when
    there is a slash; ["_" not in thread_name] is the case without a part
    after an underscore. *)
Definition extract_chat_id (keys : Keys) (data : list (string * JSON))
  : result string :=
  match getitem data (THREAD_PATH keys) with
  | Raise e => Raise e
  | Ok (JStr thread_path) =>
      match after_last "/" thread_path with
      | None =>
          Raise (ValueError "not enough values to unpack (expected 2, got 1)")
      | Some thread_name =>
          match after_first "_" thread_name with
          | None => Ok thread_name
          | Some chat_id => Ok chat_id
          end
      end
  | Ok v => Raise (AttributeError v "rsplit")
  end.

(** *** Conversation metadata *)

(** The elements a [for] loop over a value goes through. A [str] gives its
    characters, here one per byte: every loop of the code calls [.get] on
    the element first, which fails on any [str]. *)
Definition iterate (v : JSON) : result (list JSON) :=
  match v with
  | JList elements => Ok elements
  | JDict items => Ok (JStr <$> items.*1)
  | JStr s =>
      Ok ((λ a, JStr (String a EmptyString)) <$> String.list_ascii_of_string s)
  | _ => Raise (TypeError ("'" +:+ type_name v +:+ "' object is not iterable"))
  end.

(** [v.get(key, default)] on any value. *)
Definition value_get (v : JSON) (key : string) (default : JSON) : result JSON :=
  match v with
  | JDict items => Ok (get items key default)
  | _ => Raise (AttributeError v "get")
  end.

(** The names of the participants, decoded, up to the first failure. *)
Fixpoint participant_names (py : Python) (data : list JSON)
  : result (list string) :=
  match data with
  | [] => Ok []
  | participant :: rest =>
      match value_get participant "name" (JStr "Unknown") with
      | Raise e => Raise e
      | Ok name =>
          match get_decoded_content py name with
          | Raise e => Raise e
          | Ok decoded =>
              match participant_names py rest with
              | Raise e => Raise e
              | Ok names => Ok (decoded :: names)
              end
          end
      end
  end.

(** [_extract_participants]. *)
Definition _extract_participants (py : Python) (data : JSON) : result string :=
  match iterate data with
  | Raise e => Raise e
  | Ok participants =>
      match participant_names py participants with
      | Raise e => Raise e
      | Ok names => Ok (FormulateAnswer.str_join ", " names)
      end
  end.

(** [extract_conversation_meta]: the three entries are computed and
    written in the order of the dict literal. The title is stored as found,
    not decoded. *)
Definition extract_conversation_meta (py : Python) (keys : Keys)
    (conversation_data : list (string * JSON)) : result (gmap string JSON) :=
  match extract_chat_id keys conversation_data with
  | Raise e => Raise e
  | Ok chat_id =>
      let title := get conversation_data (TITLE keys) (JStr (NO_TITLE keys)) in
      match _extract_participants py
              (get conversation_data (PARTICIPANTS keys) (JList [])) with
      | Raise e => Raise e
      | Ok participants =>
          Ok (<[ PARTICIPANTS keys := JStr participants ]>
                (<[ TITLE keys := title ]>
                   {[ CHAT_ID keys := JStr chat_id ]}))
      end
  end.

End loaders_utils.

(** ** src/loaders/messenger_loader.py: [_parse_file] *)

Module messenger_parse.
Import loaders_utils.

(** The document [_parse_file] returns, with its metadata as found: the
    title is whatever value the export holds. *)
Record RawDocument : Type := mkRaw {
  raw_text : string;
  raw_metadata : gmap string JSON
}.

(** [MESSAGE_TEMPLATE.format(...)] and [PHOTO_TEMPLATE.format(...)]. *)
Definition MESSAGE_TEMPLATE (sender_name timestamp content : string) : string :=
  sender_name +:+ " (" +:+ timestamp +:+ "): " +:+ content.

Definition PHOTO_TEMPLATE (sender_name timestamp photo_path : string) : string :=
  sender_name +:+ " (" +:+ timestamp +:+ "): ![](" +:+ photo_path +:+ ")".

(** A value as [str.format] writes it. *)
Definition format_value (py : Python) (v : JSON) : string :=
  match v with
  | JStr s => s
  | _ => py_str py v
  end.

(** [messages[::-1]]. A list is reversed and so is a [str]; a dict cannot
    be sliced ([TypeError] up to Python 3.11, [KeyError] from 3.12 on, where
    slices are hashable), nor can the other values. *)
Definition reversed (v : JSON) : result (list JSON) :=
  match v with
  | JList elements => Ok (rev elements)
  | JStr s =>
      Ok (rev ((λ a, JStr (String a EmptyString)) <$> String.list_ascii_of_string s))
  | JDict _ => Raise (TypeError "unhashable type: 'slice'")
  | _ =>
      Raise (TypeError ("'" +:+ type_name v +:+ "' object is not subscriptable"))
  end.

Section parse.
Variable py : Python.
Variable keys : Keys.
(** [open(file_path, "r", encoding="utf-8")] and [json.load]. *)
Variable read_json : string → result JSON.

(** One iteration of [for photo in message[PHOTOS]]. *)
Definition photo_step (sender timestamp : string) (document_text : string)
    (photo : JSON) : M string :=
  uri ← lift (value_get photo (URI keys) (JStr EmptyString));
  mret (document_text
        +:+ PHOTO_TEMPLATE sender timestamp (format_value py uri)
        +:+ prompts.nl).

(** One iteration of [for message in messages[::-1]]; the state is
    [document_text] and [discarded_messages]. *)
Definition message_step (state : string * list JSON) (message : JSON)
  : M (string * list JSON) :=
  let '(document_text, discarded_messages) := state in
  sender_name ← lift (value_get message (SENDER_NAME keys) (JStr "Unknown Sender"));
  sender ← lift (get_decoded_content py sender_name);
  timestamp_value ←
    lift (value_get message (TIMESTAMP keys) (JStr "Unknown Timestamp"));
  timestamp ← lift (convert_timestamp_to_datetime py timestamp_value);
  emit (Log "DEBUG"
          ("Processing message from " +:+ sender +:+ " at " +:+ timestamp));;
  match message with
  | JDict items =>
      match lookup_item items (CONTENT keys) with
      | Some content =>
          decoded ← lift (get_decoded_content py content);
          mret (document_text +:+ MESSAGE_TEMPLATE sender timestamp decoded
                +:+ prompts.nl, discarded_messages)
      | None =>
          match lookup_item items (PHOTOS keys) with
          | Some photos =>
              photo_list ← lift (iterate photos);
              text ← for_each (photo_step sender timestamp) photo_list
                       document_text;
              mret (text, discarded_messages)
          | None => mret (document_text, discarded_messages ++ [message])
          end
      end
  | _ => raise (AttributeError message "get")
  end.

Definition _parse_file (file_path : string) : M RawDocument :=
  emit (Log "INFO" ("Parsing file " +:+ file_path));;
  conversation_data ← lift (read_json file_path);
  messages ← lift (value_get conversation_data (MESSAGES keys) (JList []));
  reversed_messages ← lift (reversed messages);
  state ← for_each message_step reversed_messages (EmptyString, []);
  let '(document_text, discarded_messages) := state in
  (match discarded_messages with
   | [] => mret tt
   | _ =>
       emit (Log "DEBUG"
               ("Discarded " +:+ ingestion.str_nat (length discarded_messages)
                +:+ " unsupported messages in " +:+ file_path +:+ ": "
                +:+ py_repr py (JList discarded_messages)))
   end);;
  match document_text with
  | EmptyString =>
      emit (Log "WARNING"
              ("No valid messages found in " +:+ file_path +:+ ". Skipping."));;
      mret (mkRaw EmptyString ∅)
  | _ =>
      match conversation_data with
      | JDict items =>
          metadata ← lift (extract_conversation_meta py keys items);
          emit (Log "INFO"
                  ("Extracted " +:+ ingestion.str_nat (length reversed_messages)
                   +:+ " messages from " +:+ file_path));;
          mret (mkRaw document_text metadata)
      | _ => raise (AttributeError conversation_data "get")
      end
  end.

(** The document as the rest of the model holds it, with metadata values
    as text. Every value but the title is a [str] already. *)
Definition as_document (raw : RawDocument) : Document :=
  mkDocument (raw_text raw) (format_value py <$> raw_metadata raw).

(** A loader whose parser is [_parse_file]. *)
Definition loader (data_dir : string) (allowed_dirs : list string)
    (joinpath : string → string → string) (exists_ : string → bool)
    (glob_json : string → list string) (is_file : string → bool)
  : MetaMessengerLoader.t :=
  MetaMessengerLoader.mk data_dir allowed_dirs joinpath exists_ glob_json
    is_file (λ file_path, raw ← _parse_file file_path; mret (as_document raw)).
End parse.

End messenger_parse.

(** ** src/runnables/utils.py *)

Module runnables_utils.

Definition newline : ascii := "010"%char.

(** The pattern is [!\[.*?\]\(.*?\)]: an exclamation mark and an opening
    bracket, as few characters as possible up to ["]("], then as few as
    possible up to [")"]. A dot matches any character but a newline, so a
    match lies within one line. *)

(** [.*?\]\(] at the start of [s]: the number of characters up to and
    including the first ["]("] of the line, and what follows it. *)
Fixpoint lazy_to_bracket_paren (s : string) : option (nat * string) :=
  match s with
  | EmptyString => None
  | String a rest =>
      match a, rest with
      | "]"%char, String "("%char rest' => Some (2, rest')
      | _, _ =>
          if decide (a = newline) then None
          else
            match lazy_to_bracket_paren rest with
            | Some (n, tail) => Some (S n, tail)
            | None => None
            end
      end
  end.

(** [.*?\)] at the start of [s]: the number of characters up to and
    including the first [")"] of the line, and what follows it. *)
Fixpoint lazy_to_paren (s : string) : option (nat * string) :=
  match s with
  | EmptyString => None
  | String a rest =>
      if decide (a = ")"%char) then Some (1, rest)
      else if decide (a = newline) then None
      else
        match lazy_to_paren rest with
        | Some (n, tail) => Some (S n, tail)
        | None => None
        end
  end.

(** The length of the match of the pattern at the start of [s], if there is
    one. When no [")"] follows the first ["]("] on the line, none follows a
    later ["]("] of that line either, so the first one decides. *)
Definition match_length (s : string) : option nat :=
  match s with
  | String "!"%char (String "["%char rest) =>
      match lazy_to_bracket_paren rest with
      | Some (n1, rest1) =>
          match lazy_to_paren rest1 with
          | Some (n2, _) => Some (2 + n1 + n2)
          | None => None
          end
      | None => None
      end
  | _ => None
  end.

(** [re.sub(pattern, "", s)]: matches are looked for from left to right and
    do not overlap; [skip] is the number of characters of the current match
    still to drop. *)
Fixpoint sub_from (skip : nat) (s : string) : string :=
  match s with
  | EmptyString => EmptyString
  | String a rest =>
      match skip with
      | S k => sub_from k rest
      | O =>
          match match_length s with
          | Some n => sub_from (n - 1) rest
          | None => String a (sub_from 0 rest)
          end
      end
  end.

Definition remove_image_tags (document : Document) : Document :=
  mkDocument (sub_from 0 (page_content document)) (metadata document).

End runnables_utils.

(** ** Vocabulary for the loader utilities *)

Section decoding_vocabulary.
Import loaders_utils.

(** Whether some byte of [s] satisfies [P], and whether all do. *)
Fixpoint any_byte (P : ascii → bool) (s : string) : bool :=
  match s with
  | EmptyString => false
  | String a rest => P a || any_byte P rest
  end.

Fixpoint all_bytes (P : ascii → bool) (s : string) : bool :=
  match s with
  | EmptyString => true
  | String a rest => P a && all_bytes P rest
  end.

(** A lead byte of a character above U+00FF: 0xC4 or more. *)
Definition is_wide_lead (a : ascii) : bool := (196 <=? byte_value a)%N.

(** The UTF-8 bytes of the character whose Latin-1 byte is [a]. *)
Definition latin1_char (a : ascii) : string :=
  if is_ascii_byte a then String a EmptyString
  else if (byte_value a <? 192)%N
  then String (ascii_of_N 194) (String a EmptyString)
  else String (ascii_of_N 195)
         (String (ascii_of_N (byte_value a - 64)) EmptyString).

(** The text the export holds for a text whose UTF-8 bytes are [bytes]:
    every byte read as a Latin-1 character and written in UTF-8 again. *)
Fixpoint double_encoded (bytes : string) : string :=
  match bytes with
  | EmptyString => EmptyString
  | String a rest => latin1_char a +:+ double_encoded rest
  end.
End decoding_vocabulary.

(** ** Vocabulary for [_parse_file] *)

Section parse_vocabulary.
Import loaders_utils messenger_parse.

(** The lines of a document, put end to end. *)
Definition join_lines (lines : list string) : string :=
  foldr String.append EmptyString lines.

(** The sender and the time of a message of the export, as [_parse_file]
    reads them. *)
Definition sender_of (py : Python) (keys : Keys) (items : list (string * JSON))
  : result string :=
  get_decoded_content py (get items (SENDER_NAME keys) (JStr "Unknown Sender")).

Definition time_of (py : Python) (keys : Keys) (items : list (string * JSON))
  : result string :=
  convert_timestamp_to_datetime py
    (get items (TIMESTAMP keys) (JStr "Unknown Timestamp")).

(** [message] is a text message that decodes, and [line] is its line. *)
Definition content_line (py : Python) (keys : Keys) (message : JSON)
    (line : string) : Prop :=
  ∃ items sender timestamp content decoded,
    message = JDict items ∧
    sender_of py keys items = Ok sender ∧
    time_of py keys items = Ok timestamp ∧
    lookup_item items (CONTENT keys) = Some content ∧
    get_decoded_content py content = Ok decoded ∧
    line = MESSAGE_TEMPLATE sender timestamp decoded +:+ prompts.nl.


End parse_vocabulary.

(** [participant] is a dict whose name decodes to [name]. *)
Definition participant_name (py : loaders_utils.Python)
    (participant : loaders_utils.JSON) (name : string) : Prop :=
  ∃ items,
    participant = loaders_utils.JDict items ∧
    loaders_utils.get_decoded_content py
      (loaders_utils.get items "name" (loaders_utils.JStr "Unknown")) = Ok name.

(** The document of a chunk: its text and the metadata dict it refers to. *)
Definition chunk_document (store : gmap nat (gmap string string))
    (chunk : ingestion.Chunk) : Document :=
  mkDocument (ingestion.chunk_text chunk)
    (ingestion.deref store (ingestion.metadata_ref chunk)).

(** ** Further sample data *)

Module more_samples.
Import MessageRetrieval.

(** A document that never went through the ingestion script. *)
Definition doc_without_source : Document := mkDocument "z" ∅.

(** A vector store that answers query ["a"] and is down for the rest. *)
Definition store_error : exn := ExternalError "InternalError" "index unavailable".

Definition search_a_only (query : string) (k : Z) : result (list Scored) :=
  if decide (query = "a") then Ok [(samples.docX, 9 # 10)]
  else Raise store_error.

Definition retrieval_a_only : t := init search_a_only search_a_only.

Definition context_abc : gmap string Value :=
  <[ QUERY_VARIATIONS := VList [VStr "a"; VStr "b"; VStr "c"] ]>
    {[ QUESTION := VStr "where?" ]}.

(** Two candidates at the same distance. *)
Definition pool_tie : list Scored :=
  [(samples.docY, 5 # 10); (samples.docX, 1 # 2)].

(** A chat model that answers the answer stage with a fixed sentence, and
    one that is down. *)
Definition answer_ring : FormulateAnswer.t :=
  FormulateAnswer.mk (λ _, Ok (FormulateAnswer.mkOutput "At the jewelry shop.")).

Definition answer_down : FormulateAnswer.t :=
  FormulateAnswer.mk (λ _, Raise samples.connection_error).

Definition context_retrieved : gmap string Value :=
  <[ RETRIEVED_MESSAGES := VList [VDoc samples.docY; VDoc samples.docX] ]>
    samples.context_ab.

(** A context that already went through the whole pipeline once. *)
Definition context_answered : gmap string Value :=
  <[ ANSWER := VStr "old answer" ]> context_retrieved.

(** An embedding endpoint that answers each text with a one-number
    vector, and a wrapper that sends two texts per request. *)
Definition unit_vectors (input : list string) : result (list (list Q)) :=
  Ok ((λ _, [1 # 1]) <$> input).

Definition nomic_pairs : NomicEmbeddings.t :=
  NomicEmbeddings.mk 2 false unit_vectors unit_vectors
    (λ texts _, unit_vectors texts) (λ texts _, unit_vectors texts).

(** An endpoint whose reply holds no embedding. *)
Definition nomic_empty_reply : NomicEmbeddings.t :=
  NomicEmbeddings.mk 1000 false (λ _, Ok []) (λ _, Ok [])
    (λ _ _, Ok []) (λ _ _, Ok []).

(** A loader pointed at an export that is not there. *)
Definition loader_nothing_there : MetaMessengerLoader.t :=
  MetaMessengerLoader.mk "your_facebook_activity/messages"
    MetaMessengerLoader.default_allowed_dirs
    (λ d s, d +:+ "/" +:+ s) (λ _, false) (λ _, []) (λ _, false)
    (λ _, ([], Raise (ExternalError "FileNotFoundError" "No such file"))).

(** A parser that fails on every path but the good file of
    [loader_bad_then_good]. *)
Definition parser_good_only (p : string) : M Document :=
  if decide (p = "mb/inbox/b/message_1.json")
  then ([Log "INFO" ("Parsing file " +:+ p)], Ok samples.good_document)
  else if decide (p = "mb/inbox/a/message_1.json")
  then ([Log "INFO" ("Parsing file " +:+ p)], Raise samples.bad_json)
  else ([], Raise (ExternalError "FileNotFoundError" "No such file")).

(** An interpreter for the samples: no string is a number, every time is
    the epoch, values print as a question mark. *)
Definition python : loaders_utils.Python :=
  loaders_utils.mkPython (λ _, "invalid start byte") (λ _, None)
    (λ _, Ok "1970-01-01 00:00:00") (λ _, "?") (λ _, "?").

Definition export_keys : loaders_utils.Keys :=
  loaders_utils.mkKeys "messages" "sender_name" "timestamp_ms" "content"
    "photos" "uri" "thread_path" "chat_id" "title" "No Title" "participants".

(** A conversation of two text messages, newest first as in the export,
    and one with a message that holds nothing the loader supports. *)
Definition message_hi : loaders_utils.JSON :=
  loaders_utils.JDict
    [("sender_name", loaders_utils.JStr "Ann");
     ("timestamp_ms", loaders_utils.JInt 1000);
     ("content", loaders_utils.JStr "hi")].

Definition message_bye : loaders_utils.JSON :=
  loaders_utils.JDict
    [("sender_name", loaders_utils.JStr "Bob");
     ("timestamp_ms", loaders_utils.JInt 2000);
     ("content", loaders_utils.JStr "bye")].

Definition message_cafe : loaders_utils.JSON :=
  loaders_utils.JDict
    [("sender_name", loaders_utils.JStr "Bob");
     ("timestamp_ms", loaders_utils.JInt 3000);
     ("content", loaders_utils.JStr "Café au lait")].

Definition message_sticker : loaders_utils.JSON :=
  loaders_utils.JDict
    [("sender_name", loaders_utils.JStr "Ann");
     ("timestamp_ms", loaders_utils.JInt 4000);
     ("sticker", loaders_utils.JDict [("uri", loaders_utils.JStr "s.png")])].

Definition conversation (messages : list loaders_utils.JSON)
  : list (string * loaders_utils.JSON) :=
  [("participants",
    loaders_utils.JList
      [loaders_utils.JDict [("name", loaders_utils.JStr "Ann")];
       loaders_utils.JDict [("name", loaders_utils.JStr "Bob")]]);
   ("messages", loaders_utils.JList messages);
   ("title", loaders_utils.JStr "Ann");
   ("thread_path", loaders_utils.JStr "inbox/ann_123")].

(** Three export files: a good one, one with an accent, one without
    anything to load and without a thread path. *)
Definition read_export (file_path : string) : result loaders_utils.JSON :=
  if decide (file_path = "mb/inbox/ann_123/message_1.json")
  then Ok (loaders_utils.JDict (conversation [message_bye; message_hi]))
  else if decide (file_path = "mb/inbox/bob_456/message_1.json")
  then Ok (loaders_utils.JDict (conversation [message_cafe; message_hi]))
  else if decide (file_path = "mb/inbox/cat_789/message_1.json")
  then Ok (loaders_utils.JDict
             [("messages", loaders_utils.JList [message_sticker])])
  else Raise (ExternalError "FileNotFoundError" "No such file or directory").

Definition export_loader : MetaMessengerLoader.t :=
  messenger_parse.loader python export_keys read_export "mb" ["inbox"]
    (λ d s, d +:+ "/" +:+ s) (λ _, true)
    (λ _, ["mb/inbox/ann_123/message_1.json";
           "mb/inbox/bob_456/message_1.json";
           "mb/inbox/cat_789/message_1.json"])
    (λ _, true).
End more_samples.

(** * Properties *)

(** ** The effect monad *)

Lemma bind_ok {A B} (f : A → M B) (t : list event) (a : A) :
  ((t, Ok a) ≫= f) = (t ++ (f a).1, (f a).2).
Proof. unfold mbind, M_bind, bind. by destruct (f a). Qed.

Lemma bind_raise {A B} (f : A → M B) (t : list event) (e : exn) :
  ((t, Raise e) ≫= f) = (t, Raise e).
Proof. done. Qed.

Lemma bind_lift_ok {A B} (f : A → M B) (a : A) : (lift (Ok a) ≫= f) = f a.
Proof. unfold lift. rewrite bind_ok. by destruct (f a). Qed.

Lemma bind_mret {A B} (f : A → M B) (a : A) : (mret a ≫= f) = f a.
Proof. apply (bind_lift_ok f a). Qed.

Lemma bind_lift_raise {A B} (f : A → M B) (e : exn) :
  (lift (Raise e) ≫= f) = ([], Raise e).
Proof. done. Qed.

Lemma bind_emit {B} (f : unit → M B) (ev : event) :
  (emit ev ≫= f) = (ev :: (f tt).1, (f tt).2).
Proof. unfold emit. by rewrite bind_ok. Qed.

(** A loop whose body never raises runs to the end and folds its state. *)
Lemma for_each_total {A S} (body : S → A → M S) (step : S → A → S) xs s :
  (∀ s x, outcome (body s x) = Ok (step s x)) →
  outcome (for_each body xs s) = Ok (foldl step s xs).
Proof.
  intros Hbody. revert s. induction xs as [|x xs IH]; intros s; [done|].
  simpl. specialize (Hbody s x). destruct (body s x) as [t r] eqn:E.
  unfold outcome in Hbody. simpl in Hbody. subst r.
  rewrite bind_ok. unfold outcome. simpl. apply IH.
Qed.

(** The events of the first iteration are events of the loop. *)
Lemma for_each_trace_head {A S} (body : S → A → M S) x xs s :
  trace (body s x) `prefix_of` trace (for_each body (x :: xs) s).
Proof.
  simpl. destruct (body s x) as [t [s'|e]].
  - rewrite bind_ok. unfold trace. simpl. by apply prefix_app_r.
  - done.
Qed.

(** ** Retrieval: deduplication *)

Section dedup_facts.
Import MessageRetrieval.

Lemma dedup_loop_acc docs seen acc :
  dedup_loop docs seen acc =
  match dedup_loop docs seen [] with
  | Ok u => Ok (acc ++ u)
  | Raise e => Raise e
  end.
Proof.
  revert seen acc. induction docs as [|[d s] rest IH]; intros seen acc; simpl.
  - by rewrite app_nil_r.
  - unfold source_of. destruct (metadata d !! SOURCE) as [sr|]; [|done].
    case_decide; [apply IH|].
    rewrite IH, (IH _ [(d, s)]).
    destruct (dedup_loop rest _ []); [by rewrite <- app_assoc|done].
Qed.

Lemma dedup_loop_ok docs seen u :
  dedup_loop docs seen [] = Ok u ↔
  Forall (λ x, is_Some (src x)) docs ∧ u = first_seen_from docs seen.
Proof.
  revert seen u. induction docs as [|[d s] rest IH]; intros seen u; simpl.
  - split; [intros [= <-]; by split|intros [_ ->]; done].
  - unfold source_of, src at 2. simpl.
    destruct (metadata d !! SOURCE) as [sr|] eqn:Hsr.
    + case_decide.
      * rewrite IH. split; intros [Hall ->]; (split; [|done]).
        -- constructor; [unfold src; simpl; by rewrite Hsr|done].
        -- by inversion Hall.
      * rewrite dedup_loop_acc.
        destruct (dedup_loop rest ({[sr]} ∪ seen) []) as [u'|e] eqn:E.
        -- apply IH in E as [Hall ->]. simpl. split.
           ++ intros [= <-]. split; [|done].
              constructor; [unfold src; simpl; by rewrite Hsr|done].
           ++ by intros [_ ->].
        -- split; [done|]. intros [Hall _]. inversion Hall as [|?? _ Hrest]; subst.
           assert (dedup_loop rest ({[sr]} ∪ seen) [] =
                   Ok (first_seen_from rest ({[sr]} ∪ seen))) as E'
             by (by apply IH).
           congruence.
    + split; [done|]. intros [Hall _]. inversion Hall as [|?? Hd _]; subst.
      unfold src in Hd; simpl in Hd. rewrite Hsr in Hd. by destruct Hd.
Qed.

(** A kept candidate has a source that was not seen before the loop. *)
Lemma first_seen_from_fresh docs seen x :
  x ∈ first_seen_from docs seen →
  x ∈ docs ∧ ∃ s, src x = Some s ∧ s ∉ seen.
Proof.
  revert seen. induction docs as [|y rest IH]; intros seen; simpl.
  - by intros ?%elem_of_nil.
  - destruct (src y) as [sy|] eqn:Hy.
    + case_decide as Hin.
      * intros [? ?]%IH. split; [by right|done].
      * intros [->|Hx]%elem_of_cons.
        -- split; [by left|]. eauto.
        -- apply IH in Hx as [? (s & ? & Hs)]. split; [by right|].
           exists s. split; [done|]. set_solver.
    + intros [? ?]%IH. split; [by right|done].
Qed.

Lemma first_seen_from_NoDup docs seen :
  NoDup (src <$> first_seen_from docs seen).
Proof.
  revert seen. induction docs as [|y rest IH]; intros seen; simpl.
  - constructor.
  - destruct (src y) as [sy|] eqn:Hy; [|apply IH].
    case_decide; [apply IH|].
    rewrite fmap_cons. constructor; [|apply IH].
    rewrite Hy. intros (x & Hx & Hin)%list_elem_of_fmap.
    apply first_seen_from_fresh in Hin as [_ (s & Hs & Hfresh)].
    rewrite Hs in Hx. injection Hx as ->. set_solver.
Qed.

Lemma first_seen_from_sublist docs seen :
  first_seen_from docs seen `sublist_of` docs.
Proof.
  revert seen. induction docs as [|y rest IH]; intros seen; simpl; [done|].
  destruct (src y); [case_decide|]; try (by apply sublist_cons);
    by apply sublist_skip.
Qed.

Lemma elem_of_sources docs s :
  s ∈ sources docs ↔ ∃ x, x ∈ docs ∧ src x = Some s.
Proof.
  unfold sources. rewrite elem_of_list_to_set, list_elem_of_omap. naive_solver.
Qed.

Lemma first_seen_from_app l1 l2 seen :
  first_seen_from (l1 ++ l2) seen =
  first_seen_from l1 seen ++ first_seen_from l2 (sources l1 ∪ seen).
Proof.
  revert seen. induction l1 as [|y rest IH]; intros seen; simpl.
  - f_equal. unfold sources. simpl. set_solver.
  - unfold sources. simpl. fold (sources rest).
    destruct (src y) as [sy|] eqn:Hy; simpl; [|apply IH].
    case_decide as Hin.
    + rewrite IH. do 2 f_equal. set_solver.
    + rewrite IH. simpl. do 3 f_equal. set_solver.
Qed.

Lemma first_seen_from_seen x rest seen s :
  src x = Some s → s ∈ seen →
  first_seen_from (x :: rest) seen = first_seen_from rest seen.
Proof. intros Hs Hin. simpl. rewrite Hs. by rewrite decide_True. Qed.

Lemma first_seen_from_spec docs seen x :
  x ∈ first_seen_from docs seen ↔
  ∃ pre post s, docs = pre ++ x :: post ∧ src x = Some s ∧ (s ∉ seen) ∧
                (∀ y, y ∈ pre → src y ≠ Some s).
Proof.
  split.
  - revert seen. induction docs as [|y rest IH]; intros seen; simpl.
    { by intros ?%elem_of_nil. }
    destruct (src y) as [sy|] eqn:Hy.
    + case_decide as Hin.
      * intros (pre & post & s & -> & Hs & Hfresh & Hpre)%IH.
        exists (y :: pre), post, s. repeat split; try done.
        intros z [->|Hz]%elem_of_cons; [|by apply Hpre].
        rewrite Hy. intros [= ->]. done.
      * intros [->|Hx]%elem_of_cons.
        -- exists [], rest, sy. repeat split; try done.
           by intros ? ?%elem_of_nil.
        -- apply IH in Hx as (pre & post & s & -> & Hs & Hfresh & Hpre).
           exists (y :: pre), post, s. repeat split; try done; [set_solver|].
           intros z [->|Hz]%elem_of_cons; [|by apply Hpre].
           rewrite Hy. intros [= ->]. set_solver.
    + intros (pre & post & s & -> & Hs & Hfresh & Hpre)%IH.
      exists (y :: pre), post, s. repeat split; try done.
      intros z [->|Hz]%elem_of_cons; [|by apply Hpre]. by rewrite Hy.
  - intros (pre & post & s & -> & Hs & Hfresh & Hpre).
    revert seen Hfresh. induction pre as [|y pre IH]; intros seen Hfresh; simpl.
    + rewrite Hs. rewrite decide_False by done. by left.
    + assert (src y ≠ Some s) as Hy by (apply Hpre; by left).
      assert (∀ z, z ∈ pre → src z ≠ Some s) as Hpre'
        by (intros z Hz; apply Hpre; by right).
      destruct (src y) as [sy|] eqn:Hsy; [|by apply IH].
      case_decide; [by apply IH|].
      right. apply IH; [done|]. set_solver.
Qed.

Lemma unique_retrieved_docs_ok pool u :
  unique_retrieved_docs pool = Ok u ↔
  Forall (λ x, is_Some (src x)) pool ∧ u = first_seen_from pool ∅.
Proof. apply dedup_loop_ok. Qed.

Lemma unique_first_occurrence pool u x :
  unique_retrieved_docs pool = Ok u → (x ∈ u ↔ first_occurrence pool x).
Proof.
  intros [_ ->]%unique_retrieved_docs_ok. rewrite first_seen_from_spec.
  unfold first_occurrence. split.
  - intros (pre & post & s & ? & ? & _ & ?). by exists pre, post, s.
  - intros (pre & post & s & ? & ? & ?). exists pre, post, s.
    repeat split; try done; set_solver.
Qed.
End dedup_facts.

(** ** Retrieval: sorting and truncation *)

Section sort_facts.
Import MessageRetrieval.

Lemma score_lt_true a b : score_lt a b = true → (a <= b)%Q.
Proof.
  unfold score_lt. intros H%negb_true_iff.
  apply Qlt_le_weak, Qnot_le_lt. intros Hle%Qle_bool_iff. congruence.
Qed.

Lemma score_lt_false a b : score_lt a b = false → (b <= a)%Q.
Proof. unfold score_lt. intros H%negb_false_iff. by apply Qle_bool_iff. Qed.

Lemma insert_by_score_perm x l : insert_by_score x l ≡ₚ x :: l.
Proof.
  induction l as [|y l IH]; simpl; [done|].
  destruct (score_lt x.2 y.2); [done|]. rewrite IH. apply Permutation_swap.
Qed.

Lemma insert_by_score_sorted x l :
  StronglySorted score_le l → StronglySorted score_le (insert_by_score x l).
Proof.
  induction 1 as [|y l Hl IH Hy]; simpl.
  - repeat constructor.
  - destruct (score_lt x.2 y.2) eqn:E.
    + apply score_lt_true in E. constructor; [by constructor|].
      constructor; [done|].
      eapply Forall_impl; [exact Hy|]. intros z Hz. unfold score_le in *.
      by eapply Qle_trans.
    + apply score_lt_false in E. constructor; [done|].
      rewrite insert_by_score_perm. by constructor.
Qed.

Lemma sort_by_score_from acc l :
  StronglySorted score_le acc →
  StronglySorted score_le (foldl (λ sorted x, insert_by_score x sorted) acc l)
  ∧ foldl (λ sorted x, insert_by_score x sorted) acc l ≡ₚ acc ++ l.
Proof.
  revert acc. induction l as [|x l IH]; intros acc Hacc; simpl.
  - by rewrite app_nil_r.
  - destruct (IH (insert_by_score x acc)) as [Hs Hp];
      [by apply insert_by_score_sorted|].
    split; [done|]. rewrite Hp, insert_by_score_perm. simpl.
    apply Permutation_middle.
Qed.

Lemma sort_by_score_sorted l : StronglySorted score_le (sort_by_score l).
Proof. apply sort_by_score_from. constructor. Qed.

Lemma sort_by_score_perm l : sort_by_score l ≡ₚ l.
Proof. apply (sort_by_score_from []). constructor. Qed.

Lemma slice_to_sublist {A} k (l : list A) : slice_to k l `sublist_of` l.
Proof. unfold slice_to. destruct (0 <=? k)%Z; apply sublist_take. Qed.

Lemma slice_to_prefix {A} k (l : list A) : slice_to k l `prefix_of` l.
Proof. unfold slice_to. destruct (0 <=? k)%Z; apply prefix_take. Qed.

Lemma slice_to_sorted k l :
  StronglySorted score_le l → StronglySorted score_le (slice_to k l).
Proof.
  intros Hl. destruct (slice_to_prefix k l) as [rest Hrest].
  rewrite Hrest in Hl. by apply StronglySorted_app_1_l in Hl.
Qed.

(** What [_process_documents] returns, step by step. *)
Lemma process_documents_ok self pool out :
  _process_documents self pool = Ok out ↔
  Forall (λ x, is_Some (src x)) pool ∧
  out = (slice_to (top_k_results self)
           (sort_by_score (first_seen_from pool ∅))).*1.
Proof.
  unfold _process_documents.
  destruct (unique_retrieved_docs pool) as [u|e] eqn:E.
  - apply unique_retrieved_docs_ok in E as [Hall ->]. naive_solver.
  - split; [done|]. intros [Hall _].
    assert (unique_retrieved_docs pool = Ok (first_seen_from pool ∅)) as E'
      by (by apply unique_retrieved_docs_ok).
    congruence.
Qed.

(** [_process_documents] fails only on a candidate without a source. *)
Lemma process_documents_total self pool :
  Forall (λ x, is_Some (src x)) pool →
  ∃ out, _process_documents self pool = Ok out.
Proof. intros Hall. eexists. by apply process_documents_ok. Qed.

(** The candidates behind the returned documents. *)
Lemma top_docs_kept self pool x :
  x ∈ slice_to (top_k_results self) (sort_by_score (first_seen_from pool ∅)) →
  x ∈ first_seen_from pool ∅.
Proof.
  intros Hx. eapply elem_of_sublist in Hx; [|apply slice_to_sublist].
  by rewrite sort_by_score_perm in Hx.
Qed.

Lemma first_occurrence_kept_score pool x :
  first_occurrence pool x → kept_score pool x.1 = Some x.2.
Proof.
  intros (pre & post & s & -> & Hs & Hpre). unfold kept_score.
  assert (src x = Some s) as Hx by done.
  unfold src in Hs. rewrite Hs. clear Hs.
  induction pre as [|y pre IH]; simpl.
  - by rewrite bool_decide_eq_true_2.
  - rewrite bool_decide_eq_false_2 by (apply Hpre; by left).
    apply IH. intros z Hz. apply Hpre. by right.
Qed.
End sort_facts.

Lemma StronglySorted_Forall {A} (R : relation A) (P : A → Prop) l :
  StronglySorted R l → Forall P l →
  StronglySorted (λ a b, P a ∧ P b ∧ R a b) l.
Proof.
  induction 1 as [|a l Hl IH Ha]; intros HP; [constructor|].
  inversion HP as [|?? Pa Pl]; subst. constructor; [by apply IH|].
  rewrite Forall_forall in *. intros b Hb. repeat split; auto.
Qed.

(** ** Retrieval: the run as a whole *)

Section invoke_facts.
Import MessageRetrieval.

Lemma search_step_str search k acc q :
  search_step search k acc (VStr q) =
  ([SimilaritySearch q k],
   match search q k with
   | Ok docs => Ok (acc ++ docs)
   | Raise e => Raise e
   end).
Proof. unfold search_step. simpl. by destruct (search q k). Qed.

Lemma search_loop search k (queries : list string) acc :
  Forall (λ q, ∃ docs, search q k = Ok docs) queries →
  for_each (search_step search k) (VStr <$> queries) acc =
  ((λ q, SimilaritySearch q k) <$> queries,
   Ok (acc ++ pool_of search k queries)).
Proof.
  revert acc. induction queries as [|q qs IH]; intros acc Hall; simpl.
  - unfold pool_of. simpl. by rewrite app_nil_r.
  - inversion Hall as [|?? [docs Hq] Hqs]; subst.
    rewrite search_step_str, Hq, bind_ok, IH by done. simpl.
    unfold pool_of. simpl. rewrite Hq. by rewrite <- app_assoc.
Qed.

(** A run over string queries whose searches all answer: one search per
    query, in order, and [_process_documents] on the pooled answers. *)
Lemma invoke_run self input_ (queries : list string) :
  dict_get input_ QUERY_VARIATIONS (VList []) = VList (VStr <$> queries) →
  Forall (λ q, ∃ docs,
    similarity_search_with_score self q (max_returned_search self) = Ok docs)
    queries →
  invoke self input_ =
  ((λ q, SimilaritySearch q (max_returned_search self)) <$> queries,
   match _process_documents self
           (pool_of (similarity_search_with_score self)
              (max_returned_search self) queries) with
   | Ok out => Ok (dict_with_first RETRIEVED_MESSAGES (VList (VDoc <$> out)) input_)
   | Raise e => Raise e
   end).
Proof.
  intros Hqv Hall. unfold invoke. rewrite Hqv. unfold as_list. rewrite bind_lift_ok.
  rewrite search_loop by done. rewrite bind_ok. simpl.
  destruct (_process_documents _ _); simpl; by rewrite app_nil_r.
Qed.
End invoke_facts.

(** ** Retrieval: the stated properties *)

Section retrieval_properties.
Import MessageRetrieval samples.

Lemma top_docs_first_occurrence self pool :
  Forall (first_occurrence pool)
    (slice_to (top_k_results self) (sort_by_score (first_seen_from pool ∅))).
Proof.
  apply Forall_forall. intros x Hx%top_docs_kept.
  apply first_seen_from_spec in Hx as (pre & post & s & ? & ? & _ & ?).
  by exists pre, post, s.
Qed.

Lemma unique_retrieved_docs_cases pool :
  unique_retrieved_docs pool =
  if decide (Forall (λ x, is_Some (src x)) pool)
  then Ok (first_seen_from pool ∅) else Raise (KeyError SOURCE).
Proof.
  case_decide as Hall; [by apply unique_retrieved_docs_ok|].
  unfold unique_retrieved_docs. generalize (∅ : gset string) ([] : list Scored).
  induction pool as [|[d s] rest IH]; intros seen acc.
  - by destruct Hall.
  - simpl. unfold source_of.
    destruct (metadata d !! SOURCE) as [sr|] eqn:Hsr; [|done].
    assert (¬ Forall (λ x, is_Some (src x)) rest) as Hrest.
    { intros Hrest. apply Hall. constructor; [|done]. unfold src. simpl.
      by rewrite Hsr. }
    case_decide; by apply IH.
Qed.
End retrieval_properties.

(** C1, as amended. The documents [_process_documents] returns are in
    ascending order of the score kept for each of them, and the kept score
    is the one of the first candidate of the pool that carries the
    document's source: a lower score that a later candidate has for the same
    source plays no part in the order. *)
Theorem retrieved_ordered_by_kept_score
    (self : MessageRetrieval.t) (pool : list MessageRetrieval.Scored)
    (out : list Document) :
  MessageRetrieval._process_documents self pool = Ok out →
  ordered_by (kept_score pool) out.
Proof.
  intros [_ ->]%process_documents_ok. unfold ordered_by.
  eapply StronglySorted_fmap;
    [|apply (StronglySorted_Forall score_le
               (λ x, kept_score pool x.1 = Some x.2))].
  - intros x y (Hx & Hy & Hle). by exists x.2, y.2.
  - apply slice_to_sorted, sort_by_score_sorted.
  - eapply Forall_impl; [apply top_docs_first_occurrence|].
    intros x. apply first_occurrence_kept_score.
Qed.

Lemma retrieved_ordered_by_kept_score_witness :
  ordered_by (kept_score samples.pool_xyx) [samples.docY; samples.docX].
Proof.
  apply (retrieved_ordered_by_kept_score samples.retrieval_ab samples.pool_xyx).
  vm_compute. reflexivity.
Defined.

(** C1, as stated, fails: on the pool [(X, 0.9); (Y, 0.5); (X, 0.1)] the
    result is [Y; X], while the best score of [X] (0.1) is below the best
    score of [Y] (0.5). *)
Lemma retrieved_not_ordered_by_best_score :
  ¬ (∀ (self : MessageRetrieval.t) (pool : list MessageRetrieval.Scored)
       (out : list Document),
        MessageRetrieval._process_documents self pool = Ok out →
        ordered_by (best_score pool) out).
Proof.
  intros H.
  specialize (H samples.retrieval_ab samples.pool_xyx
                [samples.docY; samples.docX] eq_refl).
  apply StronglySorted_inv in H as [_ H].
  apply Forall_cons in H as [(s1 & s2 & H1 & H2 & Hle) _].
  vm_compute in H1. vm_compute in H2.
  injection H1 as <-. injection H2 as <-.
  unfold Qle in Hle. simpl in Hle. lia.
Qed.

(** C2. Deduplication is first-seen wins. The kept candidates are a
    sub-sequence of the pool, and a candidate is kept, with its score,
    exactly when no candidate before it in the pool has its source. A later
    candidate with the source of an earlier one changes nothing, whatever
    its score. With queries ["a"] and ["b"] both finding [X], at 0.9 and at
    0.1, the merge keeps [X] with 0.9. *)
Theorem first_seen_wins :
  (∀ pool u,
     MessageRetrieval.unique_retrieved_docs pool = Ok u →
     u `sublist_of` pool ∧ ∀ x, x ∈ u ↔ first_occurrence pool x) ∧
  (∀ l1 l2 l3 x y s,
     src x = Some s → src y = Some s →
     MessageRetrieval.unique_retrieved_docs (l1 ++ x :: l2 ++ y :: l3) =
     MessageRetrieval.unique_retrieved_docs (l1 ++ x :: l2 ++ l3)) ∧
  MessageRetrieval.unique_retrieved_docs
    (pool_of samples.search_ab 10 ["a"; "b"]) = Ok [(samples.docX, 9 # 10)] ∧
  MessageRetrieval.invoke samples.retrieval_ab samples.context_ab =
    ([SimilaritySearch "a" 10; SimilaritySearch "b" 10],
     Ok (<[ RETRIEVED_MESSAGES := VList [VDoc samples.docX] ]> samples.context_ab)).
Proof.
  split; [|split; [|split]].
  - intros pool u Hu. split.
    + apply unique_retrieved_docs_ok in Hu as [_ ->].
      apply first_seen_from_sublist.
    + intros x. by apply unique_first_occurrence.
  - intros l1 l2 l3 x y s Hx Hy. rewrite !unique_retrieved_docs_cases.
    assert (Forall (λ x, is_Some (src x)) (l1 ++ x :: l2 ++ y :: l3) ↔
            Forall (λ x, is_Some (src x)) (l1 ++ x :: l2 ++ l3)) as Hiff.
    { rewrite !Forall_app, !Forall_cons, !Forall_app, !Forall_cons.
      rewrite Hx, Hy. naive_solver. }
    repeat case_decide; try tauto. f_equal.
    assert (∀ l, l1 ++ x :: l2 ++ l = (l1 ++ x :: l2) ++ l) as Happ
      by (intros l; by rewrite <- app_assoc).
    rewrite !Happ, !first_seen_from_app. f_equal.
    apply (first_seen_from_seen y l3 _ s); [done|].
    apply elem_of_union_l, elem_of_sources. exists x. split; [|done].
    rewrite elem_of_app, elem_of_cons. tauto.
  - vm_compute. reflexivity.
  - vm_compute. reflexivity.
Qed.

Lemma first_seen_wins_witness :
  [(samples.docX, 9 # 10); (samples.docY, 5 # 10)] `sublist_of` samples.pool_xyx ∧
  MessageRetrieval.unique_retrieved_docs
    ([] ++ (samples.docX, 9 # 10) :: [(samples.docY, 5 # 10)]
        ++ (samples.docX, 1 # 10) :: []) =
  MessageRetrieval.unique_retrieved_docs
    ([] ++ (samples.docX, 9 # 10) :: [(samples.docY, 5 # 10)] ++ []).
Proof.
  destruct first_seen_wins as (H1 & H2 & _).
  split.
  - apply (H1 samples.pool_xyx). vm_compute. reflexivity.
  - apply (H2 [] [(samples.docY, 5 # 10)] [] _ _ "conv1-4");
      vm_compute; reflexivity.
Defined.

(** C4. No two of the documents [_process_documents] returns have the same
    [metadata["source"]], and each of them has one. *)
Theorem retrieved_sources_distinct
    (self : MessageRetrieval.t) (pool : list MessageRetrieval.Scored)
    (out : list Document) :
  MessageRetrieval._process_documents self pool = Ok out →
  NoDup ((λ d, metadata d !! SOURCE) <$> out) ∧
  Forall (λ d, is_Some (metadata d !! SOURCE)) out.
Proof.
  intros [Hall ->]%process_documents_ok.
  set (top := MessageRetrieval.slice_to _ _).
  assert (top `sublist_of` MessageRetrieval.sort_by_score (first_seen_from pool ∅))
    as Hsub by apply slice_to_sublist.
  split.
  - rewrite <- list_fmap_compose.
    change ((λ d, metadata d !! SOURCE) ∘ fst) with src.
    eapply sublist_NoDup; [|by apply fmap_sublist].
    rewrite sort_by_score_perm. apply first_seen_from_NoDup.
  - apply Forall_fmap, Forall_forall. intros x Hx. simpl.
    eapply elem_of_sublist in Hx; [|exact Hsub].
    rewrite sort_by_score_perm in Hx.
    apply first_seen_from_fresh in Hx as [_ (s & Hs & _)]. by exists s.
Qed.

Lemma retrieved_sources_distinct_witness :
  NoDup ((λ d, metadata d !! SOURCE) <$> [samples.docY; samples.docX]) ∧
  Forall (λ d, is_Some (metadata d !! SOURCE)) [samples.docY; samples.docX].
Proof.
  apply (retrieved_sources_distinct samples.retrieval_ab samples.pool_xyx).
  vm_compute. reflexivity.
Defined.

(** C5. With no query variations, absent or empty, a run makes no
    similarity search and its result list is empty. *)
Theorem empty_variations_no_search
    (self : MessageRetrieval.t) (input_ : gmap string Value) :
  dict_get input_ QUERY_VARIATIONS (VList []) = VList [] →
  MessageRetrieval._process_documents self [] = Ok [] ∧
  MessageRetrieval.invoke self input_ =
    ([], Ok (dict_with_first RETRIEVED_MESSAGES (VList []) input_)) ∧
  MessageRetrieval.ainvoke self input_ =
    ([], Ok (dict_with_first RETRIEVED_MESSAGES (VList []) input_)).
Proof.
  intros Hqv.
  assert (MessageRetrieval._process_documents self [] = Ok []) as Hempty.
  { unfold MessageRetrieval._process_documents, MessageRetrieval.slice_to. simpl.
    destruct (0 <=? _)%Z; [|done].
    unfold MessageRetrieval.sort_by_score. simpl. by rewrite take_nil. }
  split; [done|].
  unfold MessageRetrieval.invoke, MessageRetrieval.ainvoke.
  rewrite Hqv. unfold as_list. rewrite !bind_lift_ok. cbn [for_each].
  by rewrite !bind_mret, Hempty, !bind_lift_ok.
Qed.

Lemma empty_variations_no_search_witness :
  MessageRetrieval._process_documents samples.retrieval_ab [] = Ok [] ∧
  MessageRetrieval.invoke samples.retrieval_ab samples.context_question =
    ([], Ok (dict_with_first RETRIEVED_MESSAGES (VList []) samples.context_question)) ∧
  MessageRetrieval.ainvoke samples.retrieval_ab samples.context_question =
    ([], Ok (dict_with_first RETRIEVED_MESSAGES (VList []) samples.context_question)).
Proof.
  apply (empty_variations_no_search samples.retrieval_ab samples.context_question).
  vm_compute. reflexivity.
Defined.

(** ** The Nomic embedding wrapper *)

Section nomic_facts.
Import NomicEmbeddings.

Lemma trace_bind_lift {A B} (m : M A) (g : A → result B) :
  trace (m ≫= λ a, lift (g a)) = trace m.
Proof.
  destruct m as [t [a|e]]; [|done]. rewrite bind_ok. unfold trace. simpl.
  by rewrite app_nil_r.
Qed.

(** The chunk loop over a single text: one request carrying that text
    when the chunk size is positive, none otherwise. *)
Lemma chunk_loop_single create (s : string) (c : Z) :
  (lift (py_range 0 (Z.of_nat (length [s])) c) ≫= λ starts,
     for_each (create_step create [s] c) starts []) =
  if (c =? 0)%Z then ([], Raise (ValueError "range() arg 3 must not be zero"))
  else if (0 <? c)%Z then ([EmbeddingsCreate [s]], create [s])
  else ([], Ok []).
Proof.
  unfold py_range. destruct (c =? 0)%Z eqn:E0; [done|].
  apply Z.eqb_neq in E0. rewrite bind_lift_ok.
  destruct (0 <? c)%Z eqn:Epos.
  - apply Z.ltb_lt in Epos. change (Z.of_nat (length [s])) with 1%Z.
    change (0 <? 1)%Z with true. cbn match.
    replace (1 - 0 - 1)%Z with 0%Z by lia. rewrite Zdiv_0_l.
    change (Z.to_nat (0 + 1)) with 1%nat. cbn [seq fmap list_fmap for_each].
    unfold create_step, slice.
    replace (0 + Z.of_nat 0 * c + c - (0 + Z.of_nat 0 * c))%Z with c by lia.
    replace (Z.to_nat (0 + Z.of_nat 0 * c)) with 0%nat by lia.
    destruct (Z.to_nat c) as [|n] eqn:En; [lia|]. simpl.
    rewrite take_nil. by destruct (create [s]).
  - change (Z.of_nat (length [s])) with 1%Z.
    change (1 <? 0)%Z with false. done.
Qed.
End nomic_facts.

(** C3. [embed_query t] is [embed_documents] on ["search_query: " + t],
    followed by [[0]], so every text it hands to the embedding endpoint is
    ["search_document: search_query: " + t]: one request with that single
    text on the length-safe path and, with a positive chunk size, on the
    direct path. The same holds for [aembed_query]. *)
Theorem embed_query_double_prefix
    (self : NomicEmbeddings.t) (t : string) (chunk_size_arg : option Z) :
  let c := NomicEmbeddings.effective_chunk_size self chunk_size_arg in
  let sent := "search_document: search_query: " +:+ t in
  let requests :=
    if NomicEmbeddings.check_embedding_ctx_length self
    then [LenSafeEmbeddings [sent] c]
    else if (0 <? c)%Z then [EmbeddingsCreate [sent]] else [] in
  NomicEmbeddings.embed_query self t chunk_size_arg =
    (NomicEmbeddings.embed_documents self ["search_query: " +:+ t] chunk_size_arg
       ≫= λ embeddings, lift (NomicEmbeddings.getitem0 embeddings)) ∧
  NomicEmbeddings.aembed_query self t chunk_size_arg =
    (NomicEmbeddings.aembed_documents self ["search_query: " +:+ t] chunk_size_arg
       ≫= λ embeddings, lift (NomicEmbeddings.getitem0 embeddings)) ∧
  trace (NomicEmbeddings.embed_query self t chunk_size_arg) = requests ∧
  trace (NomicEmbeddings.aembed_query self t chunk_size_arg) = requests ∧
  Forall (λ ev, NomicEmbeddings.sent_texts ev = [sent]) requests.
Proof.
  intros c sent requests. split; [done|]. split; [done|].
  assert (NomicEmbeddings._prefixed
            (NomicEmbeddings._prefixed [t] "search_query: ")
            "search_document: " = [sent]) as Hpre by done.
  split; [|split].
  - unfold NomicEmbeddings.embed_query. rewrite trace_bind_lift.
    unfold NomicEmbeddings.embed_documents. rewrite Hpre. fold c.
    unfold requests.
    destruct (NomicEmbeddings.check_embedding_ctx_length self); simpl negb; cbv iota.
    + rewrite bind_emit. done.
    + rewrite chunk_loop_single.
      destruct (c =? 0)%Z eqn:E0; [apply Z.eqb_eq in E0; by rewrite E0|].
      by destruct (0 <? c)%Z.
  - unfold NomicEmbeddings.aembed_query. rewrite trace_bind_lift.
    unfold NomicEmbeddings.aembed_documents. rewrite Hpre. fold c.
    unfold requests.
    destruct (NomicEmbeddings.check_embedding_ctx_length self); simpl negb; cbv iota.
    + rewrite bind_emit. done.
    + rewrite chunk_loop_single.
      destruct (c =? 0)%Z eqn:E0; [apply Z.eqb_eq in E0; by rewrite E0|].
      by destruct (0 <? c)%Z.
  - unfold requests.
    destruct (NomicEmbeddings.check_embedding_ctx_length self);
      [|destruct (0 <? c)%Z]; repeat constructor.
Qed.

(** ** The context dict *)

Lemma dict_with_first_adds_only key (v : Value) (input_ : gmap string Value) :
  adds_only key input_ (dict_with_first key v input_).
Proof.
  unfold adds_only, dict_with_first. split.
  - apply map_union_subseteq_l.
  - rewrite dom_union_L, dom_singleton_L. set_solver.
Qed.

Lemma dict_with_first_lookup_ne key k (v : Value) (input_ : gmap string Value) :
  k ≠ key → dict_with_first key v input_ !! k = input_ !! k.
Proof.
  intros Hne. unfold dict_with_first. rewrite lookup_union.
  rewrite lookup_singleton_ne by done. by destruct (input_ !! k).
Qed.

Lemma dict_with_first_lookup_new key (v : Value) (input_ : gmap string Value) :
  input_ !! key = None → dict_with_first key v input_ !! key = Some v.
Proof.
  intros Hnone. unfold dict_with_first. rewrite lookup_union, Hnone.
  by rewrite lookup_singleton_eq.
Qed.

(** ** Inversion of successful runs *)

Lemma bind_inv_ok {A B} (m : M A) (f : A → M B) t b :
  (m ≫= f) = (t, Ok b) →
  ∃ t1 a t2, m = (t1, Ok a) ∧ f a = (t2, Ok b) ∧ t = t1 ++ t2.
Proof.
  destruct m as [t1 [a|e]]; [|done]. rewrite bind_ok.
  destruct (f a) as [t2 r] eqn:E. simpl. intros [= <- ->]. by exists t1, a, t2.
Qed.

Lemma mret_inv_ok {A} (a b : A) t : (mret a : M A) = (t, Ok b) → a = b.
Proof. by intros [= _ ->]. Qed.

(** ** The stages *)

(** Peels the binds of a run that returned, down to its final [mret]. *)
Ltac run_inv H :=
  repeat (apply bind_inv_ok in H as (? & ? & ? & _ & H & _); cbv beta zeta in H);
  apply mret_inv_ok in H.

Lemma string_append_empty_r (s : string) : s +:+ EmptyString = s.
Proof.
  induction s as [|a s IH]; [done|].
  change (String a (s +:+ EmptyString) = String a s). by f_equal.
Qed.

Lemma format_answer_template (q c : string) :
  prompts.format prompts.answer_formulation_template
    (<[ RETRIEVED_MESSAGES := c ]> {[ QUESTION := q ]}) =
  Ok ("Question: " +:+ q +:+ prompts.nl +:+ "Messages: " +:+ c).
Proof.
  unfold prompts.answer_formulation_template. cbn [prompts.format].
  assert ((<[ RETRIEVED_MESSAGES := c ]> {[ QUESTION := q ]} : gmap string string)
            !! "question" = Some q) as -> by done.
  assert ((<[ RETRIEVED_MESSAGES := c ]> {[ QUESTION := q ]} : gmap string string)
            !! "retrieved_messages" = Some c) as -> by done.
  by rewrite string_append_empty_r.
Qed.

Lemma str_join_nil sep : FormulateAnswer.str_join sep [] = EmptyString.
Proof. done. Qed.

Section stage_facts.

Lemma query_variation_returns self input_ t out :
  QueryVariation.invoke self input_ = (t, Ok out) →
  ∃ v, out = dict_with_first QUERY_VARIATIONS v input_.
Proof. unfold QueryVariation.invoke. intros H. run_inv H. eauto. Qed.

Lemma query_variation_areturns self input_ t out :
  QueryVariation.ainvoke self input_ = (t, Ok out) →
  ∃ v, out = dict_with_first QUERY_VARIATIONS v input_.
Proof. unfold QueryVariation.ainvoke. intros H. run_inv H. eauto. Qed.

Lemma retrieval_returns self input_ t out :
  MessageRetrieval.invoke self input_ = (t, Ok out) →
  ∃ v, out = dict_with_first RETRIEVED_MESSAGES v input_.
Proof. unfold MessageRetrieval.invoke. intros H. run_inv H. eauto. Qed.

Lemma retrieval_areturns self input_ t out :
  MessageRetrieval.ainvoke self input_ = (t, Ok out) →
  ∃ v, out = dict_with_first RETRIEVED_MESSAGES v input_.
Proof. unfold MessageRetrieval.ainvoke. intros H. run_inv H. eauto. Qed.

Lemma answer_returns self input_ t out :
  FormulateAnswer.invoke self input_ = (t, Ok out) →
  ∃ v, out = dict_with_first ANSWER v input_.
Proof. unfold FormulateAnswer.invoke. intros H. run_inv H. eauto. Qed.

Lemma returned_frame key v (input_ out : gmap string Value) :
  key ≠ QUESTION →
  out = dict_with_first key v input_ →
  adds_only key input_ out ∧ out !! QUESTION = input_ !! QUESTION.
Proof.
  intros Hne ->. split; [apply dict_with_first_adds_only|].
  by apply dict_with_first_lookup_ne.
Qed.

End stage_facts.

(** C6. Whenever a stage returns, the context it returns holds every entry
    of the context it was given, unchanged, and has exactly one more key at
    most: the stage's own field. The [question] entry is the same before and
    after each stage. *)
Theorem stages_preserve_context :
  (∀ self input_ t out,
     QueryVariation.invoke self input_ = (t, Ok out) →
     adds_only QUERY_VARIATIONS input_ out ∧
     out !! QUESTION = input_ !! QUESTION) ∧
  (∀ self input_ t out,
     QueryVariation.ainvoke self input_ = (t, Ok out) →
     adds_only QUERY_VARIATIONS input_ out ∧
     out !! QUESTION = input_ !! QUESTION) ∧
  (∀ self input_ t out,
     MessageRetrieval.invoke self input_ = (t, Ok out) →
     adds_only RETRIEVED_MESSAGES input_ out ∧
     out !! QUESTION = input_ !! QUESTION) ∧
  (∀ self input_ t out,
     MessageRetrieval.ainvoke self input_ = (t, Ok out) →
     adds_only RETRIEVED_MESSAGES input_ out ∧
     out !! QUESTION = input_ !! QUESTION) ∧
  (∀ self input_ t out,
     FormulateAnswer.invoke self input_ = (t, Ok out) →
     adds_only ANSWER input_ out ∧
     out !! QUESTION = input_ !! QUESTION).
Proof.
  split; [|split; [|split; [|split]]]; intros self input_ t out Hrun.
  - apply query_variation_returns in Hrun as [v Hv].
    by apply (returned_frame _ v).
  - apply query_variation_areturns in Hrun as [v Hv].
    by apply (returned_frame _ v).
  - apply retrieval_returns in Hrun as [v Hv].
    by apply (returned_frame _ v).
  - apply retrieval_areturns in Hrun as [v Hv].
    by apply (returned_frame _ v).
  - apply answer_returns in Hrun as [v Hv].
    by apply (returned_frame _ v).
Qed.

Lemma stages_preserve_context_witness :
  adds_only QUERY_VARIATIONS samples.context_question
    (dict_with_first QUERY_VARIATIONS
       (VList [VStr "I bought a ring yesterday."]) samples.context_question) ∧
  adds_only QUERY_VARIATIONS samples.context_question
    (dict_with_first QUERY_VARIATIONS
       (VList [VStr "I bought a ring yesterday."]) samples.context_question) ∧
  adds_only RETRIEVED_MESSAGES samples.context_ab
    (dict_with_first RETRIEVED_MESSAGES (VList [VDoc samples.docX])
       samples.context_ab) ∧
  adds_only RETRIEVED_MESSAGES samples.context_ab
    (dict_with_first RETRIEVED_MESSAGES (VList [VDoc samples.docX])
       samples.context_ab) ∧
  adds_only ANSWER samples.context_nothing_found
    (dict_with_first ANSWER (VStr "42") samples.context_nothing_found).
Proof.
  destruct stages_preserve_context as (H1 & H2 & H3 & H4 & H5).
  split; [|split; [|split; [|split]]].
  - eapply proj1, (H1 samples.expansion_ok samples.context_question). reflexivity.
  - eapply proj1, (H2 samples.expansion_ok samples.context_question). reflexivity.
  - eapply proj1, (H3 samples.retrieval_ab samples.context_ab). reflexivity.
  - eapply proj1, (H4 samples.retrieval_ab samples.context_ab). reflexivity.
  - eapply proj1, (H5 samples.answer_42 samples.context_nothing_found). reflexivity.
Defined.

(** C7. When the call to the chat model fails during query expansion, the
    stage does not return: it raises the very exception of the failed call,
    after that one call. No context comes back, neither one with the
    original question as the only query nor one with an empty list of
    variations. *)
Theorem expansion_failure_fails_request
    (self : QueryVariation.t) (input_ : gmap string Value) (q : string)
    (e : exn) :
  as_str (dict_get input_ QUESTION (VStr EmptyString)) = Ok q →
  let messages :=
    [SystemMessage prompts.query_variation_prompt; HumanMessage q] in
  (GenerationFailure (QueryVariation.structured_invoke self) messages e →
   QueryVariation.invoke self input_ =
     ([ChatInvoke "QueryVariationOutput" messages], Raise e)) ∧
  (GenerationFailure (QueryVariation.structured_ainvoke self) messages e →
   QueryVariation.ainvoke self input_ =
     ([ChatInvoke "QueryVariationOutput" messages], Raise e)).
Proof.
  intros Hq messages. unfold GenerationFailure.
  split; intros Hfail.
  - unfold QueryVariation.invoke. rewrite Hq, bind_lift_ok. cbv zeta.
    fold messages. rewrite bind_emit. by rewrite Hfail.
  - unfold QueryVariation.ainvoke. rewrite Hq, bind_lift_ok. cbv zeta.
    fold messages. rewrite bind_emit. by rewrite Hfail.
Qed.

Lemma expansion_failure_fails_request_witness :
  QueryVariation.invoke samples.expansion_down samples.context_question =
    ([ChatInvoke "QueryVariationOutput"
        [SystemMessage prompts.query_variation_prompt; HumanMessage "where?"]],
     Raise samples.connection_error) ∧
  QueryVariation.ainvoke samples.expansion_down samples.context_question =
    ([ChatInvoke "QueryVariationOutput"
        [SystemMessage prompts.query_variation_prompt; HumanMessage "where?"]],
     Raise samples.connection_error).
Proof.
  destruct (expansion_failure_fails_request samples.expansion_down
              samples.context_question "where?" samples.connection_error)
    as [H1 H2]; [reflexivity|].
  split; [apply H1|apply H2]; reflexivity.
Defined.

(** C8, as amended. With an empty list of retrieved messages the answer
    stage still asks the chat model: the system message is the answer
    prompt, in which the refusal sentence stands word for word, and the
    human message carries the question and an empty context. The answer
    returned is the string the model replies with. *)
Theorem synthesis_on_empty_context
    (self : FormulateAnswer.t) (input_ : gmap string Value) (q : string) :
  dict_get input_ RETRIEVED_MESSAGES (VList []) = VList [] →
  as_str (dict_get input_ QUESTION (VStr EmptyString)) = Ok q →
  FormulateAnswer.invoke self input_ =
    ([ChatInvoke "FormulatedAnswerOutput" (answer_messages q EmptyString)],
     match FormulateAnswer.structured_invoke self
             (answer_messages q EmptyString) with
     | Ok response =>
         Ok (dict_with_first ANSWER
               (VStr (FormulateAnswer.answer response)) input_)
     | Raise e => Raise e
     end) ∧
  ∃ pre post,
    prompts.answer_formulation_prompt = pre +:+ refusal_sentence +:+ post.
Proof.
  intros Hrm Hq. split.
  - unfold FormulateAnswer.invoke. rewrite Hrm. unfold as_list.
    rewrite bind_lift_ok, Hq, bind_lift_ok.
    cbn [fmap list_fmap all_ok]. rewrite bind_lift_ok. cbv zeta.
    rewrite str_join_nil. unfold FormulateAnswer.chain_invoke.
    rewrite format_answer_template, bind_lift_ok. cbv zeta.
    unfold answer_messages. rewrite bind_emit.
    by destruct (FormulateAnswer.structured_invoke self _).
  - exists ("You are a helpful assistant that answers questions based on the provided context from a chat history. "
            +:+ "Use the context to provide accurate and relevant answers. "
            +:+ "If the context does not contain enough information to answer the question, respond with '"),
      "' Be concise and to the point in your responses.".
    reflexivity.
Qed.

Lemma synthesis_on_empty_context_witness :
  FormulateAnswer.invoke samples.answer_42 samples.context_nothing_found =
    ([ChatInvoke "FormulatedAnswerOutput" (answer_messages "where?" EmptyString)],
     Ok (dict_with_first ANSWER (VStr "42") samples.context_nothing_found)).
Proof.
  apply (synthesis_on_empty_context samples.answer_42
           samples.context_nothing_found "where?"); reflexivity.
Defined.

(** C8, as stated, fails: a chat model that replies ["42"] to an empty
    context makes the answer ["42"], not the refusal sentence. *)
Lemma empty_context_answer_not_fixed :
  ¬ (∀ (self : FormulateAnswer.t) (input_ : gmap string Value) t out,
       dict_get input_ RETRIEVED_MESSAGES (VList []) = VList [] →
       FormulateAnswer.invoke self input_ = (t, Ok out) →
       out !! ANSWER = Some (VStr refusal_sentence)).
Proof.
  intros H.
  specialize (H samples.answer_42 samples.context_nothing_found _ _
                eq_refl eq_refl).
  vm_compute in H. discriminate H.
Qed.

(** ** Ingestion: decimal strings *)

Section decimal_facts.
Import ingestion.

Lemma append_cons a (s t : string) : String a s +:+ t = String a (s +:+ t).
Proof. done. Qed.

Lemma string_of_uint_no_dash (d : Decimal.uint) :
  contains "-" (NilEmpty.string_of_uint d) = false.
Proof. induction d; simpl; done. Qed.

Lemma str_nat_no_dash i : contains "-" (str_nat i) = false.
Proof. apply string_of_uint_no_dash. Qed.

Lemma str_nat_inj i j : str_nat i = str_nat j → i = j.
Proof.
  unfold str_nat. intros H. apply Unsigned.to_uint_inj.
  pose proof (NilEmpty.usu (Nat.to_uint i)) as Hi.
  pose proof (NilEmpty.usu (Nat.to_uint j)) as Hj.
  rewrite H in Hi. congruence.
Qed.

Lemma contains_dash_suffix (c d : string) : contains "-" (c +:+ "-" +:+ d) = true.
Proof.
  induction c as [|a c IH]; [done|].
  rewrite append_cons. simpl. by case_decide.
Qed.

(** A string [c ++ "-" ++ d] with no dash in [d] determines [d]. *)
Lemma dash_suffix_inj (c1 c2 d1 d2 : string) :
  c1 +:+ "-" +:+ d1 = c2 +:+ "-" +:+ d2 →
  contains "-" d1 = false → contains "-" d2 = false → d1 = d2.
Proof.
  revert c2. induction c1 as [|a c1 IH]; intros [|b c2] Heq H1 H2.
  - injection Heq as Heq. exact Heq.
  - rewrite append_cons in Heq. injection Heq as _ Heq.
    change (d1 = c2 +:+ "-" +:+ d2) in Heq.
    rewrite Heq, contains_dash_suffix in H1. done.
  - rewrite append_cons in Heq. injection Heq as _ Heq.
    change (c1 +:+ "-" +:+ d1 = d2) in Heq.
    rewrite <- Heq, contains_dash_suffix in H2. done.
  - rewrite !append_cons in Heq. injection Heq as _ Heq. by eapply IH.
Qed.
End decimal_facts.

(** ** Ingestion: the assignment loop *)

Section assign_facts.
Import ingestion.
Variable CHAT_ID : string.

Lemma deref_assign_source_eq i text store :
  deref (assign_source CHAT_ID i text store) (metadata_ref text) =
  <[ "source" := conversation_id CHAT_ID store text +:+ "-" +:+ str_nat i ]>
    (deref store (metadata_ref text)).
Proof. unfold assign_source, deref at 1. by rewrite lookup_insert_eq. Qed.

Lemma deref_assign_source_ne i text store r :
  r ≠ metadata_ref text →
  deref (assign_source CHAT_ID i text store) r = deref store r.
Proof.
  intros Hne. unfold assign_source, deref. by rewrite lookup_insert_ne.
Qed.

(** The loop leaves alone every dict no chunk refers to. *)
Lemma deref_assign_sources_other texts i store r :
  r ∉ metadata_ref <$> texts →
  deref (assign_sources_from CHAT_ID i texts store) r = deref store r.
Proof.
  revert i store. induction texts as [|text rest IH]; intros i store Hr; [done|].
  simpl. rewrite fmap_cons in Hr. apply not_elem_of_cons in Hr as [Hne Hrest].
  rewrite IH by done. by apply deref_assign_source_ne.
Qed.

(** With one dict per chunk, chunk [j] gets the number [i + j]. *)
Lemma deref_assign_sources_at texts i store j text :
  NoDup (metadata_ref <$> texts) →
  texts !! j = Some text →
  deref (assign_sources_from CHAT_ID i texts store) (metadata_ref text) =
  <[ "source" := conversation_id CHAT_ID store text +:+ "-" +:+ str_nat (i + j) ]>
    (deref store (metadata_ref text)).
Proof.
  revert i store j. induction texts as [|text' rest IH]; intros i store j Hnd Hj.
  { done. }
  rewrite fmap_cons in Hnd. apply NoDup_cons in Hnd as [Hfresh Hnd].
  destruct j as [|j]; simpl in Hj.
  - injection Hj as ->. simpl.
    rewrite deref_assign_sources_other by done.
    rewrite deref_assign_source_eq. by rewrite Nat.add_0_r.
  - simpl. rewrite (IH (S i) _ j) by done.
    assert (metadata_ref text ≠ metadata_ref text') as Hne.
    { intros Heq. apply Hfresh. rewrite <- Heq.
      apply list_elem_of_fmap. exists text. split; [done|].
      by eapply list_elem_of_lookup_2. }
    unfold conversation_id. rewrite deref_assign_source_ne by done.
    by rewrite Nat.add_succ_r.
Qed.
End assign_facts.

(** C9, as amended. When every chunk has a metadata dict of its own, the
    loop gives chunk number [j] of the whole list of chunks the source
    [<conversation id>-<j>], with ["blank"] for a chunk without a
    conversation id, and no two chunks get the same source. The number is
    the position in the list of all chunks, not the position within the
    chunk's conversation. *)
Theorem source_ids_numbered_globally
    (CHAT_ID : string) (texts : list ingestion.Chunk)
    (store : gmap nat (gmap string string)) :
  NoDup (ingestion.metadata_ref <$> texts) →
  let store' := ingestion.assign_sources CHAT_ID texts store in
  (∀ j text,
     texts !! j = Some text →
     ingestion.source_id store' text =
     Some (ingestion.conversation_id CHAT_ID store text +:+ "-"
           +:+ ingestion.str_nat j)) ∧
  NoDup (ingestion.source_id store' <$> texts).
Proof.
  intros Hnd store'.
  assert (∀ j text,
            texts !! j = Some text →
            ingestion.source_id store' text =
            Some (ingestion.conversation_id CHAT_ID store text +:+ "-"
                  +:+ ingestion.str_nat j)) as Hsrc.
  { intros j text Hj. unfold ingestion.source_id, store', ingestion.assign_sources.
    rewrite (deref_assign_sources_at CHAT_ID texts 0 store j) by done.
    by rewrite lookup_insert_eq. }
  split; [done|].
  apply NoDup_alt. intros i j x Hi Hj.
  apply list_lookup_fmap_Some_1 in Hi as (ti & Hxi & Hti).
  apply list_lookup_fmap_Some_1 in Hj as (tj & Hxj & Htj).
  rewrite (Hsrc i ti Hti) in Hxi. rewrite (Hsrc j tj Htj) in Hxj.
  subst x. injection Hxj as Heq.
  apply dash_suffix_inj in Heq; [|apply str_nat_no_dash..].
  symmetry. by apply str_nat_inj.
Qed.

Lemma source_ids_numbered_globally_witness :
  ingestion.source_id
    (ingestion.assign_sources samples.chat_id_key samples.two_chunks
       samples.two_dicts)
    (ingestion.mkChunk "bye" 1) = Some "B-1".
Proof.
  destruct (source_ids_numbered_globally samples.chat_id_key
              samples.two_chunks samples.two_dicts) as [H _].
  - apply (bool_decide_unpack _). vm_compute. exact I.
  - apply (H 1%nat (ingestion.mkChunk "bye" 1)). reflexivity.
Defined.

(** C9, as stated, fails: of two conversations with one chunk each, the
    chunk of the second is number 0 within its conversation and gets the
    source ["B-1"]. *)
Lemma source_id_not_conversation_index :
  ¬ (∀ (CHAT_ID : string) (texts : list ingestion.Chunk)
       (store : gmap nat (gmap string string)),
       NoDup (ingestion.metadata_ref <$> texts) →
       ∀ j text,
         texts !! j = Some text →
         ingestion.source_id (ingestion.assign_sources CHAT_ID texts store) text =
         Some (ingestion.conversation_id CHAT_ID store text +:+ "-"
               +:+ ingestion.str_nat
                     (ingestion.index_in_conversation CHAT_ID store texts j))).
Proof.
  intros H.
  assert (NoDup (ingestion.metadata_ref <$> samples.two_chunks)) as Hnd
    by (apply (bool_decide_unpack _); vm_compute; exact I).
  specialize (H samples.chat_id_key samples.two_chunks samples.two_dicts Hnd
                1%nat (ingestion.mkChunk "bye" 1) eq_refl).
  vm_compute in H. discriminate H.
Qed.

(** Two chunks that share one metadata dict end up with one source: the
    requirement of a dict per chunk cannot be dropped. *)
Example shared_metadata_collides :
  ingestion.source_id
    (ingestion.assign_sources samples.chat_id_key samples.two_chunks_shared
       samples.two_dicts) <$> samples.two_chunks_shared =
  [Some "A-1"; Some "A-1"].
Proof. reflexivity. Qed.

(** ** The loader *)

(** In a loop whose body never raises, the events of every iteration are
    events of the loop. *)
Lemma for_each_trace_elem {A S} (body : S → A → M S) xs s0 x :
  (∀ s y, ∃ s', outcome (body s y) = Ok s') →
  x ∈ xs →
  ∃ s, ∀ ev, ev ∈ trace (body s x) → ev ∈ trace (for_each body xs s0).
Proof.
  intros Htotal. revert s0. induction xs as [|y xs IH]; intros s0 Hx.
  { by apply elem_of_nil in Hx. }
  apply elem_of_cons in Hx as [->|Hx].
  - exists s0. intros ev Hev.
    eapply elem_of_prefix; [exact Hev|apply for_each_trace_head].
  - destruct (Htotal s0 y) as [s' Hs']. simpl.
    destruct (body s0 y) as [t r] eqn:E. unfold outcome in Hs'. simpl in Hs'.
    subst r. rewrite bind_ok. destruct (IH s' Hx) as [s Hs]. exists s.
    intros ev Hev. unfold trace. simpl. apply elem_of_app. right. by apply Hs.
Qed.

Lemma foldl_app_concat {A B} (f : B → list A) (xs : list B) (acc : list A) :
  foldl (λ acc x, acc ++ f x) acc xs = acc ++ concat (f <$> xs).
Proof.
  revert acc. induction xs as [|x xs IH]; intros acc; simpl.
  - by rewrite app_nil_r.
  - by rewrite IH, app_assoc.
Qed.

Section loader_facts.
Import MetaMessengerLoader.

Lemma file_step_outcome self yielded file_path :
  outcome (file_step self yielded file_path) =
  Ok (yielded ++ parsed self file_path).
Proof.
  unfold file_step, parsed. destruct (is_file self file_path).
  - destruct (_parse_file self file_path) as [t [doc|e]].
    + by rewrite bind_ok.
    + rewrite bind_raise. unfold outcome. simpl.
      destruct e; simpl; by rewrite app_nil_r.
  - unfold outcome. simpl. by rewrite app_nil_r.
Qed.

Lemma file_loop_outcome self file_paths yielded :
  outcome (for_each (file_step self) file_paths yielded) =
  Ok (yielded ++ concat (parsed self <$> file_paths)).
Proof.
  rewrite (for_each_total _ (λ y f, y ++ parsed self f))
    by apply file_step_outcome.
  by rewrite foldl_app_concat.
Qed.

Lemma dir_step_outcome self yielded allowed_dir :
  outcome (dir_step self yielded allowed_dir) =
  Ok (yielded ++ concat (parsed self <$> dir_files self allowed_dir)).
Proof.
  unfold dir_step, dir_files. cbv zeta.
  destruct (exists_ self _); simpl negb; cbv iota.
  - rewrite bind_emit. unfold outcome. simpl.
    destruct (glob_json self _) as [|f fs] eqn:E.
    + simpl. by rewrite app_nil_r.
    + apply file_loop_outcome.
  - unfold outcome. simpl. by rewrite app_nil_r.
Qed.

(** A file whose parsing raises leaves its error line in the log. *)
Lemma file_step_error_line self yielded file_path e :
  is_file self file_path = true →
  outcome (_parse_file self file_path) = Raise e →
  error_line file_path e ∈ trace (file_step self yielded file_path).
Proof.
  intros Hfile Hraise. unfold file_step. rewrite Hfile.
  destruct (_parse_file self file_path) as [t r]. unfold outcome in Hraise.
  simpl in Hraise. subst r. rewrite bind_raise. unfold trace. simpl.
  destruct e; simpl; apply elem_of_app; right; by left.
Qed.

Lemma dir_step_trace self yielded allowed_dir file_path :
  file_path ∈ dir_files self allowed_dir →
  ∃ y, ∀ ev, ev ∈ trace (file_step self y file_path) →
             ev ∈ trace (dir_step self yielded allowed_dir).
Proof.
  unfold dir_files, dir_step. cbv zeta.
  destruct (exists_ self _); simpl negb; cbv iota;
    [|by intros ?%elem_of_nil].
  intros Hin. rewrite bind_emit.
  destruct (glob_json self _) as [|f fs] eqn:E; [by apply elem_of_nil in Hin|].
  destruct (for_each_trace_elem (file_step self) (f :: fs) yielded file_path)
    as [y Hy]; [|done|].
  { intros s y. eexists. apply file_step_outcome. }
  exists y. intros ev Hev. unfold trace. simpl. right. by apply Hy.
Qed.

Lemma lazy_load_outcome self :
  outcome (lazy_load self) = Ok (loaded self).
Proof.
  unfold lazy_load, loaded, files_of.
  rewrite (for_each_total _
             (λ y d, y ++ concat (parsed self <$> dir_files self d)))
    by apply dir_step_outcome.
  rewrite foldl_app_concat. simpl. f_equal.
  induction (allowed_dirs self) as [|d ds IH]; [done|].
  rewrite !fmap_cons. cbn [concat]. rewrite fmap_app, concat_app.
  by f_equal.
Qed.
End loader_facts.

(** C10. [lazy_load] never raises: it yields the document of every visited
    file that parses, in order. A file whose parsing raises, with a JSON
    decoding error or with any other exception, leaves one error line in the
    log and no document, and the files before and after it yield theirs. *)
Theorem bad_files_are_skipped (self : MetaMessengerLoader.t) :
  outcome (MetaMessengerLoader.lazy_load self) = Ok (loaded self) ∧
  (∀ file_path e,
     file_path ∈ files_of self →
     MetaMessengerLoader.is_file self file_path = true →
     outcome (MetaMessengerLoader._parse_file self file_path) = Raise e →
     error_line file_path e ∈ trace (MetaMessengerLoader.lazy_load self)) ∧
  (∀ before bad after e,
     files_of self = before ++ bad :: after →
     outcome (MetaMessengerLoader._parse_file self bad) = Raise e →
     loaded self =
     concat (parsed self <$> before) ++ concat (parsed self <$> after)).
Proof.
  split; [apply lazy_load_outcome|]. split.
  - intros file_path e Hin Hfile Hraise. unfold files_of in Hin.
    apply list_elem_of_In, in_concat in Hin as (fs & Hdirs & Hfs).
    apply list_elem_of_In in Hdirs. apply list_elem_of_In in Hfs.
    apply list_elem_of_fmap in Hdirs as (d & -> & Hd).
    destruct (for_each_trace_elem (MetaMessengerLoader.dir_step self)
                (MetaMessengerLoader.allowed_dirs self) [] d) as [y Hy];
      [|done|].
    { intros s x. eexists. apply dir_step_outcome. }
    destruct (dir_step_trace self y d file_path Hfs) as [y' Hy'].
    apply Hy, Hy'. by apply file_step_error_line.
  - intros before bad after e Hfiles Hraise. unfold loaded. rewrite Hfiles.
    rewrite fmap_app, concat_app, fmap_cons. simpl. f_equal.
    unfold parsed at 1. rewrite Hraise.
    by destruct (MetaMessengerLoader.is_file self bad).
Qed.

Lemma bad_files_are_skipped_witness :
  outcome (MetaMessengerLoader.lazy_load samples.loader_bad_then_good) =
    Ok [samples.good_document] ∧
  error_line "mb/inbox/a/message_1.json" samples.bad_json
    ∈ trace (MetaMessengerLoader.lazy_load samples.loader_bad_then_good).
Proof.
  destruct (bad_files_are_skipped samples.loader_bad_then_good)
    as (H1 & H2 & _).
  split; [exact H1|].
  apply H2; [|reflexivity|reflexivity].
  apply (bool_decide_unpack _). vm_compute. exact I.
Defined.

(** * Further properties of the code *)

(** ** Retrieval *)

Section retrieval_further.
Import MessageRetrieval.

Lemma first_seen_from_length docs seen :
  length (first_seen_from docs seen) = size (sources docs ∖ seen).
Proof.
  revert seen. induction docs as [|y rest IH]; intros seen; simpl.
  - unfold sources. simpl. by rewrite difference_disjoint_L, size_empty by set_solver.
  - unfold sources. simpl. fold (sources rest).
    destruct (src y) as [sy|] eqn:Hy; simpl; [|apply IH].
    case_decide as Hin.
    + rewrite IH. f_equal. set_solver.
    + simpl. rewrite IH.
      replace (({[sy]} ∪ sources rest) ∖ seen)
        with ({[sy]} ∪ sources rest ∖ ({[sy]} ∪ seen)).
      * rewrite (size_union {[sy]} (sources rest ∖ ({[sy]} ∪ seen)))
          by set_solver.
        by rewrite size_singleton.
      * apply set_eq. intros z. rewrite !elem_of_union, !elem_of_difference,
          !elem_of_union, !elem_of_singleton.
        destruct (decide (z = sy)) as [->|]; naive_solver.
Qed.

Lemma slice_to_length_spec {A} k (l : list A) :
  length (slice_to k l) = slice_to_length k (length l).
Proof.
  unfold slice_to, slice_to_length.
  destruct (0 <=? k)%Z; rewrite length_take; lia.
Qed.

Lemma for_each_app {A S} (body : S → A → M S) xs ys s :
  for_each body (xs ++ ys) s = (for_each body xs s ≫= for_each body ys).
Proof.
  revert s. induction xs as [|x xs IH]; intros s.
  - symmetry. apply (bind_mret (for_each body ys) s).
  - cbn [app for_each]. destruct (body s x) as [t [s'|e]]; [|done].
    rewrite !bind_ok, IH.
    destruct (for_each body xs s') as [t' [s''|e']].
    + cbn [fst snd]. rewrite !bind_ok. cbn [fst snd]. by rewrite app_assoc.
    + cbn [fst snd]. by rewrite !bind_raise.
Qed.

Lemma search_loop_fails search k (before : list string) q after e acc :
  Forall (λ q, ∃ docs, search q k = Ok docs) before →
  search q k = Raise e →
  for_each (search_step search k) (VStr <$> before ++ q :: after) acc =
  ((λ q, SimilaritySearch q k) <$> before ++ [q], Raise e).
Proof.
  intros Hbefore Hq. rewrite fmap_app, for_each_app, search_loop by done.
  rewrite bind_ok, fmap_cons. cbn [for_each].
  rewrite search_step_str, Hq, bind_raise. simpl. by rewrite fmap_app.
Qed.

Lemma filter_none {A} (P : A → Prop) `{∀ x, Decision (P x)} (l : list A) :
  Forall (λ x, ¬ P x) l → filter P l = [].
Proof.
  induction 1 as [|x l Hx Hl IH]; [done|].
  by rewrite filter_cons_False.
Qed.

Lemma insert_by_score_with_score s x l :
  StronglySorted score_le l →
  with_score s (insert_by_score x l) = with_score s l ++ with_score s [x].
Proof.
  unfold with_score.
  induction 1 as [|y l Hl IH Hy]; [by rewrite filter_nil|]. simpl.
  destruct (score_lt x.2 y.2) eqn:E.
  - assert (x.2 < y.2)%Q as Hlt.
    { unfold score_lt in E. apply negb_true_iff in E.
      apply Qnot_le_lt. intros Hle%Qle_bool_iff. congruence. }
    destruct (decide (Qeq_bool x.2 s = true)) as [Hx|Hx].
    + rewrite filter_cons_True by done.
      rewrite (filter_cons_True _ _ []) by done. rewrite filter_nil.
      apply Qeq_bool_iff in Hx.
      rewrite filter_none; [done|].
      apply Forall_forall. intros z Hin Hz%Qeq_bool_iff.
      assert (y.2 <= z.2)%Q as Hyz.
      { apply elem_of_cons in Hin as [->|Hin]; [apply Qle_refl|].
        rewrite Forall_forall in Hy. by apply Hy. }
      rewrite Hz, <- Hx in Hyz. by apply Qle_not_lt in Hyz.
    + rewrite filter_cons_False by done.
      rewrite (filter_cons_False _ _ []) by done.
      by rewrite filter_nil, app_nil_r.
  - rewrite !(filter_cons _ y). case_decide; rewrite IH; done.
Qed.

Lemma sort_by_score_from_with_score s acc l :
  StronglySorted score_le acc →
  with_score s (foldl (λ sorted x, insert_by_score x sorted) acc l) =
  with_score s acc ++ with_score s l.
Proof.
  revert acc. induction l as [|x l IH]; intros acc Hacc; simpl.
  - unfold with_score. by rewrite filter_nil, app_nil_r.
  - rewrite IH by (by apply insert_by_score_sorted).
    rewrite insert_by_score_with_score by done.
    unfold with_score. rewrite <- app_assoc. f_equal.
    rewrite (filter_cons _ x l), (filter_cons _ x []), filter_nil.
    by case_decide.
Qed.
End retrieval_further.

(** X1. The number of documents returned is the number of distinct sources
    in the pool, cut by the slice [[:top_k_results]]: at most
    [top_k_results] when that is not negative, and all but the last
    [-top_k_results] when it is negative. *)
Theorem retrieved_count
    (self : MessageRetrieval.t) (pool : list MessageRetrieval.Scored)
    (out : list Document) :
  MessageRetrieval._process_documents self pool = Ok out →
  length out =
  slice_to_length (MessageRetrieval.top_k_results self) (size (sources pool)).
Proof.
  intros [_ ->]%process_documents_ok.
  rewrite length_fmap, slice_to_length_spec. f_equal.
  rewrite sort_by_score_perm, first_seen_from_length. f_equal.
  apply difference_empty_L.
Qed.

Lemma retrieved_count_witness :
  length [samples.docY; samples.docX] =
  slice_to_length 20 (size (sources samples.pool_xyx)).
Proof.
  apply (retrieved_count samples.retrieval_ab samples.pool_xyx).
  vm_compute. reflexivity.
Defined.

(** X2. Every document returned is the document of a candidate of the
    pool: the stage builds no document of its own and changes none. *)
Theorem retrieved_from_pool
    (self : MessageRetrieval.t) (pool : list MessageRetrieval.Scored)
    (out : list Document) :
  MessageRetrieval._process_documents self pool = Ok out →
  Forall (λ d, ∃ score, (d, score) ∈ pool) out.
Proof.
  intros [_ ->]%process_documents_ok.
  apply Forall_fmap, Forall_forall. intros [d score] Hx%top_docs_kept.
  apply first_seen_from_fresh in Hx as [Hin _]. by exists score.
Qed.

Lemma retrieved_from_pool_witness :
  Forall (λ d, ∃ score, (d, score) ∈ samples.pool_xyx)
    [samples.docY; samples.docX].
Proof.
  apply (retrieved_from_pool samples.retrieval_ab samples.pool_xyx).
  vm_compute. reflexivity.
Defined.

(** X3. A candidate without [metadata["source"]] fails the whole merge
    with [KeyError], whatever the other candidates are; this is the only way
    [_process_documents] fails. *)
Theorem missing_source_raises
    (self : MessageRetrieval.t) (pool : list MessageRetrieval.Scored) (e : exn) :
  MessageRetrieval._process_documents self pool = Raise e ↔
  e = KeyError SOURCE ∧ ∃ x, x ∈ pool ∧ metadata x.1 !! SOURCE = None.
Proof.
  unfold MessageRetrieval._process_documents.
  rewrite unique_retrieved_docs_cases. case_decide as Hall.
  - split; [done|]. intros [_ (x & Hx & Hnone)].
    rewrite Forall_forall in Hall. specialize (Hall x Hx).
    unfold src in Hall. rewrite Hnone in Hall. by destruct Hall.
  - apply not_Forall_Exists in Hall; [|apply _].
    apply Exists_exists in Hall as (x & Hx & Hsrc).
    split.
    + intros [= <-]. split; [done|]. exists x. split; [done|].
      unfold src in Hsrc. simpl in Hsrc.
      destruct (metadata x.1 !! SOURCE); [|done].
      destruct Hsrc. by eexists.
    + by intros [-> _].
Qed.

(** X4. Candidates with equal scores come out in the order they have in the
    pool: the sort is stable. *)
Theorem sort_keeps_order_of_ties (s : Q) (l : list MessageRetrieval.Scored) :
  with_score s (MessageRetrieval.sort_by_score l) = with_score s l.
Proof.
  unfold MessageRetrieval.sort_by_score.
  rewrite sort_by_score_from_with_score by constructor. done.
Qed.

(** X5. A run over string queries whose searches all answer makes one
    search per query variation, in the order of the list and each for
    [max_returned_search] neighbours, and passes the pooled answers to
    [_process_documents]. Only the variations are searched: the question
    plays no part. The same holds for [ainvoke]. *)
Theorem one_search_per_variation
    (self : MessageRetrieval.t) (input_ : gmap string Value)
    (queries : list string) :
  let k := MessageRetrieval.max_returned_search self in
  dict_get input_ QUERY_VARIATIONS (VList []) = VList (VStr <$> queries) →
  (Forall (λ q, ∃ docs,
     MessageRetrieval.similarity_search_with_score self q k = Ok docs) queries →
   MessageRetrieval.invoke self input_ =
   ((λ q, SimilaritySearch q k) <$> queries,
    match MessageRetrieval._process_documents self
            (pool_of (MessageRetrieval.similarity_search_with_score self) k
               queries) with
    | Ok out =>
        Ok (dict_with_first RETRIEVED_MESSAGES (VList (VDoc <$> out)) input_)
    | Raise e => Raise e
    end)) ∧
  (Forall (λ q, ∃ docs,
     MessageRetrieval.asimilarity_search_with_score self q k = Ok docs) queries →
   MessageRetrieval.ainvoke self input_ =
   ((λ q, SimilaritySearch q k) <$> queries,
    match MessageRetrieval._process_documents self
            (pool_of (MessageRetrieval.asimilarity_search_with_score self) k
               queries) with
    | Ok out =>
        Ok (dict_with_first RETRIEVED_MESSAGES (VList (VDoc <$> out)) input_)
    | Raise e => Raise e
    end)).
Proof.
  intros k Hqv. split; intros Hall.
  - by apply invoke_run.
  - unfold MessageRetrieval.ainvoke. rewrite Hqv. unfold as_list.
    rewrite bind_lift_ok, search_loop by done. rewrite bind_ok. simpl.
    fold k. destruct (MessageRetrieval._process_documents _ _); simpl;
      by rewrite app_nil_r.
Qed.

Lemma one_search_per_variation_witness :
  MessageRetrieval.invoke samples.retrieval_ab samples.context_ab =
  ([SimilaritySearch "a" 10; SimilaritySearch "b" 10],
   Ok (dict_with_first RETRIEVED_MESSAGES (VList [VDoc samples.docX])
         samples.context_ab)).
Proof.
  destruct (one_search_per_variation samples.retrieval_ab samples.context_ab
              ["a"; "b"]) as [H _]; [reflexivity|].
  apply H. repeat constructor; eexists; reflexivity.
Defined.

(** X6. The searches are fail-fast: when the search for one variation
    raises, the run raises that exception, having searched the variations up
    to that one and none after it; nothing of what the earlier searches
    found is returned. *)
Theorem search_failure_aborts_run
    (self : MessageRetrieval.t) (input_ : gmap string Value)
    (before : list string) (q : string) (after : list string) (e : exn) :
  let k := MessageRetrieval.max_returned_search self in
  dict_get input_ QUERY_VARIATIONS (VList []) =
    VList (VStr <$> before ++ q :: after) →
  Forall (λ q, ∃ docs,
    MessageRetrieval.similarity_search_with_score self q k = Ok docs) before →
  MessageRetrieval.similarity_search_with_score self q k = Raise e →
  MessageRetrieval.invoke self input_ =
  ((λ q, SimilaritySearch q k) <$> before ++ [q], Raise e).
Proof.
  intros k Hqv Hbefore Hq. unfold MessageRetrieval.invoke.
  rewrite Hqv. unfold as_list. rewrite bind_lift_ok.
  by rewrite (search_loop_fails _ _ before q after e).
Qed.

Lemma search_failure_aborts_run_witness :
  MessageRetrieval.invoke more_samples.retrieval_a_only more_samples.context_abc =
  ([SimilaritySearch "a" 10; SimilaritySearch "b" 10],
   Raise more_samples.store_error).
Proof.
  apply (search_failure_aborts_run more_samples.retrieval_a_only
           more_samples.context_abc ["a"] "b" ["c"]).
  - reflexivity.
  - repeat constructor. eexists. reflexivity.
  - reflexivity.
Defined.

(** ** The stages *)

Lemma dict_with_first_existing key (v w : Value) (input_ : gmap string Value) :
  input_ !! key = Some w → dict_with_first key v input_ = input_.
Proof.
  intros Hw. unfold dict_with_first. apply map_eq. intros k.
  rewrite lookup_union. destruct (decide (k = key)) as [->|Hne].
  - by rewrite Hw, lookup_singleton_eq.
  - rewrite lookup_singleton_ne by done. by destruct (input_ !! k).
Qed.

(** X7. A stage never overwrites its own field: run on a context that
    already holds [query_variations], [retrieved_messages] or [answer], the
    stage still does its work, and the context it returns is the context it
    was given, with the old value of the field. *)
Theorem stage_keeps_existing_field :
  (∀ self input_ t out,
     is_Some (input_ !! QUERY_VARIATIONS) →
     QueryVariation.invoke self input_ = (t, Ok out) → out = input_) ∧
  (∀ self input_ t out,
     is_Some (input_ !! RETRIEVED_MESSAGES) →
     MessageRetrieval.invoke self input_ = (t, Ok out) → out = input_) ∧
  (∀ self input_ t out,
     is_Some (input_ !! ANSWER) →
     FormulateAnswer.invoke self input_ = (t, Ok out) → out = input_).
Proof.
  split; [|split]; intros self input_ t out [w Hw] Hrun.
  - apply query_variation_returns in Hrun as [v ->].
    by eapply dict_with_first_existing.
  - apply retrieval_returns in Hrun as [v ->].
    by eapply dict_with_first_existing.
  - apply answer_returns in Hrun as [v ->].
    by eapply dict_with_first_existing.
Qed.

Lemma stage_keeps_existing_field_witness :
  dict_with_first QUERY_VARIATIONS
    (VList [VStr "I bought a ring yesterday."]) samples.context_ab =
    samples.context_ab ∧
  dict_with_first RETRIEVED_MESSAGES (VList [VDoc samples.docX])
    more_samples.context_retrieved = more_samples.context_retrieved ∧
  dict_with_first ANSWER (VStr "At the jewelry shop.")
    more_samples.context_answered = more_samples.context_answered.
Proof.
  destruct stage_keeps_existing_field as (H1 & H2 & H3).
  split; [|split].
  - eapply (H1 samples.expansion_ok samples.context_ab);
      [by eexists|reflexivity].
  - eapply (H2 samples.retrieval_ab more_samples.context_retrieved);
      [by eexists|reflexivity].
  - eapply (H3 more_samples.answer_ring more_samples.context_answered);
      [by eexists|reflexivity].
Defined.

Lemma all_ok_docs (docs : list Document) :
  all_ok (as_doc <$> (VDoc <$> docs)) = Ok docs.
Proof.
  induction docs as [|d docs IH]; [done|].
  rewrite !fmap_cons. cbn [all_ok as_doc]. by rewrite IH.
Qed.

Lemma answer_run
    (self : FormulateAnswer.t) (input_ : gmap string Value)
    (docs : list Document) (q : string) :
  dict_get input_ RETRIEVED_MESSAGES (VList []) = VList (VDoc <$> docs) →
  as_str (dict_get input_ QUESTION (VStr EmptyString)) = Ok q →
  let messages :=
    answer_messages q
      (FormulateAnswer.str_join prompts.nl (page_content <$> docs)) in
  FormulateAnswer.invoke self input_ =
  ([ChatInvoke "FormulatedAnswerOutput" messages],
   match FormulateAnswer.structured_invoke self messages with
   | Ok response =>
       Ok (dict_with_first ANSWER (VStr (FormulateAnswer.answer response)) input_)
   | Raise e => Raise e
   end).
Proof.
  intros Hrm Hq messages. unfold FormulateAnswer.invoke. rewrite Hrm.
  unfold as_list. rewrite bind_lift_ok, Hq, bind_lift_ok.
  rewrite all_ok_docs, bind_lift_ok. cbv zeta. unfold FormulateAnswer.chain_invoke.
  rewrite format_answer_template, bind_lift_ok. cbv zeta.
  fold (answer_messages q
          (FormulateAnswer.str_join prompts.nl (page_content <$> docs))).
  fold messages. rewrite bind_emit.
  by destruct (FormulateAnswer.structured_invoke self messages).
Qed.

(** X8. The answer stage makes one call to the chat model. The human
    message is the question followed by the texts of the retrieved
    documents, in their ranked order, joined by newlines. The stage returns
    the model's reply as the answer, or raises the exception of the call. *)
Theorem answer_stage_single_call
    (self : FormulateAnswer.t) (input_ : gmap string Value)
    (docs : list Document) (q : string) :
  dict_get input_ RETRIEVED_MESSAGES (VList []) = VList (VDoc <$> docs) →
  as_str (dict_get input_ QUESTION (VStr EmptyString)) = Ok q →
  let messages :=
    answer_messages q
      (FormulateAnswer.str_join prompts.nl (page_content <$> docs)) in
  FormulateAnswer.invoke self input_ =
  ([ChatInvoke "FormulatedAnswerOutput" messages],
   match FormulateAnswer.structured_invoke self messages with
   | Ok response =>
       Ok (dict_with_first ANSWER (VStr (FormulateAnswer.answer response)) input_)
   | Raise e => Raise e
   end).
Proof. apply answer_run. Qed.

Lemma answer_stage_single_call_witness :
  FormulateAnswer.invoke more_samples.answer_down more_samples.context_retrieved =
  ([ChatInvoke "FormulatedAnswerOutput"
      (answer_messages "where?" ("y" +:+ prompts.nl +:+ "x"))],
   Raise samples.connection_error).
Proof.
  apply (answer_stage_single_call more_samples.answer_down
           more_samples.context_retrieved [samples.docY; samples.docX] "where?");
    reflexivity.
Defined.

Lemma expansion_run
    (self : QueryVariation.t) (input_ : gmap string Value) (q : string)
    (response : QueryVariation.QueryVariationOutput) :
  as_str (dict_get input_ QUESTION (VStr EmptyString)) = Ok q →
  let messages :=
    [SystemMessage prompts.query_variation_prompt; HumanMessage q] in
  QueryVariation.structured_invoke self messages = Ok response →
  QueryVariation.invoke self input_ =
  ([ChatInvoke "QueryVariationOutput" messages],
   Ok (dict_with_first QUERY_VARIATIONS
         (VList (VStr <$> QueryVariation.query_variations response)) input_)).
Proof.
  intros Hq messages Hok. unfold QueryVariation.invoke.
  rewrite Hq, bind_lift_ok. cbv zeta. fold messages.
  rewrite bind_emit, Hok. done.
Qed.

Lemma dict_get_with_first_new key (v default : Value) (input_ : gmap string Value) :
  input_ !! key = None →
  dict_get (dict_with_first key v input_) key default = v.
Proof.
  intros Hnone. unfold dict_get. by rewrite dict_with_first_lookup_new.
Qed.

Lemma dict_get_with_first_ne key k (v default : Value)
    (input_ : gmap string Value) :
  k ≠ key →
  dict_get (dict_with_first key v input_) k default = dict_get input_ k default.
Proof.
  intros Hne. unfold dict_get. by rewrite dict_with_first_lookup_ne.
Qed.

(** X9. The three stages in a row. On a context that has no variations
    and no retrieved messages yet, expansion, retrieval and answer run one
    after the other make one chat call, one search per variation the model
    gave, and one more chat call; the answer model is asked the unchanged
    question with the texts of the retrieved documents in ranked order; and
    the final context is the first one with the three fields added. *)
Theorem stages_in_a_row
    (expansion : QueryVariation.t) (retrieval : MessageRetrieval.t)
    (synthesis : FormulateAnswer.t) (input_ : gmap string Value) (q : string)
    (response : QueryVariation.QueryVariationOutput) (out : list Document)
    (reply : FormulateAnswer.FormulatedAnswerOutput) :
  let k := MessageRetrieval.max_returned_search retrieval in
  let variations := QueryVariation.query_variations response in
  let expansion_messages :=
    [SystemMessage prompts.query_variation_prompt; HumanMessage q] in
  let synthesis_messages :=
    answer_messages q
      (FormulateAnswer.str_join prompts.nl (page_content <$> out)) in
  input_ !! QUERY_VARIATIONS = None →
  input_ !! RETRIEVED_MESSAGES = None →
  as_str (dict_get input_ QUESTION (VStr EmptyString)) = Ok q →
  QueryVariation.structured_invoke expansion expansion_messages = Ok response →
  Forall (λ v, ∃ docs,
    MessageRetrieval.similarity_search_with_score retrieval v k = Ok docs)
    variations →
  MessageRetrieval._process_documents retrieval
    (pool_of (MessageRetrieval.similarity_search_with_score retrieval) k
       variations) = Ok out →
  FormulateAnswer.structured_invoke synthesis synthesis_messages = Ok reply →
  ((QueryVariation.invoke expansion input_
      ≫= MessageRetrieval.invoke retrieval)
     ≫= FormulateAnswer.invoke synthesis) =
  (ChatInvoke "QueryVariationOutput" expansion_messages
     :: ((λ v, SimilaritySearch v k) <$> variations)
     ++ [ChatInvoke "FormulatedAnswerOutput" synthesis_messages],
   Ok (dict_with_first ANSWER (VStr (FormulateAnswer.answer reply))
         (dict_with_first RETRIEVED_MESSAGES (VList (VDoc <$> out))
            (dict_with_first QUERY_VARIATIONS (VList (VStr <$> variations))
               input_)))).
Proof.
  intros k variations expansion_messages synthesis_messages
    Hqv Hrm Hq Hexp Hsearch Hproc Hreply.
  rewrite (expansion_run expansion input_ q response) by done.
  rewrite bind_ok. fold variations. fold expansion_messages.
  set (ctx1 := dict_with_first QUERY_VARIATIONS (VList (VStr <$> variations)) input_).
  rewrite (invoke_run retrieval ctx1 variations);
    [|by apply dict_get_with_first_new|done].
  fold k. rewrite Hproc. cbn [fst snd]. rewrite bind_ok.
  set (ctx2 := dict_with_first RETRIEVED_MESSAGES (VList (VDoc <$> out)) ctx1).
  rewrite (answer_run synthesis ctx2 out q).
  - fold synthesis_messages. rewrite Hreply. cbn [fst snd]. simpl. done.
  - apply dict_get_with_first_new. unfold ctx1.
    by rewrite dict_with_first_lookup_ne.
  - unfold ctx2, ctx1. by rewrite !dict_get_with_first_ne.
Qed.

Lemma stages_in_a_row_witness :
  ((QueryVariation.invoke samples.expansion_ok samples.context_question
      ≫= MessageRetrieval.invoke samples.retrieval_ab)
     ≫= FormulateAnswer.invoke more_samples.answer_ring) =
  ([ChatInvoke "QueryVariationOutput"
      [SystemMessage prompts.query_variation_prompt; HumanMessage "where?"];
    SimilaritySearch "I bought a ring yesterday." 10;
    ChatInvoke "FormulatedAnswerOutput" (answer_messages "where?" EmptyString)],
   Ok (dict_with_first ANSWER (VStr "At the jewelry shop.")
         (dict_with_first RETRIEVED_MESSAGES (VList [])
            (dict_with_first QUERY_VARIATIONS
               (VList [VStr "I bought a ring yesterday."])
               samples.context_question)))).
Proof.
  apply (stages_in_a_row samples.expansion_ok samples.retrieval_ab
           more_samples.answer_ring samples.context_question "where?"
           (QueryVariation.mkOutput ["I bought a ring yesterday."]) []
           (FormulateAnswer.mkOutput "At the jewelry shop."));
    try reflexivity.
  repeat constructor. eexists. reflexivity.
Defined.

(** ** The Nomic embedding wrapper *)

Section nomic_further.
Import NomicEmbeddings.

(** The number of requests for [n] texts in chunks of [c]. *)
Lemma py_range_chunks (n : nat) (c : Z) :
  (0 < c)%Z →
  py_range 0 (Z.of_nat n) c =
  Ok ((λ j : nat, (0 + Z.of_nat j * c)%Z)
        <$> seq 0 (Z.to_nat (if (0 <? Z.of_nat n)%Z
                             then (Z.of_nat n - 0 - 1) / c + 1 else 0)%Z)).
Proof.
  intros Hc. unfold py_range.
  destruct (c =? 0)%Z eqn:E0; [apply Z.eqb_eq in E0; lia|].
  destruct (0 <? c)%Z eqn:E1; [done|]. apply Z.ltb_ge in E1. lia.
Qed.

(** The chunk loop when the endpoint answers every request. *)
Lemma chunk_loop_answers create (f : list string → list Vector)
    (texts : list string) (c : Z) (starts : list Z) (acc : list Vector) :
  (∀ input, create input = Ok (f input)) →
  for_each (create_step create texts c) starts acc =
  (EmbeddingsCreate <$> ((λ i, slice i (i + c) texts) <$> starts),
   Ok (acc ++ concat (f <$> ((λ i, slice i (i + c) texts) <$> starts)))).
Proof.
  intros Hcreate. revert acc.
  induction starts as [|i starts IH]; intros acc.
  - simpl. by rewrite app_nil_r.
  - cbn [for_each].
    assert (create_step create texts c acc i =
            ([EmbeddingsCreate (slice i (i + c) texts)],
             Ok (acc ++ f (slice i (i + c) texts)))) as ->.
    { unfold create_step. cbv zeta. by rewrite Hcreate. }
    rewrite bind_ok, IH. cbn [fst snd]. rewrite !fmap_cons. cbn [concat].
    by rewrite <- app_assoc.
Qed.

Lemma concat_chunks {A} (m cn : nat) (l : list A) :
  concat ((λ j, take cn (drop (j * cn) l)) <$> seq 0 m) = take (m * cn) l.
Proof.
  induction m as [|m IH]; [done|].
  rewrite seq_S, fmap_app, concat_app, IH. simpl.
  rewrite app_nil_r, take_take_drop. f_equal. lia.
Qed.

Lemma slice_chunk {A} (j : nat) (c : Z) (l : list A) :
  (0 < c)%Z →
  slice (0 + Z.of_nat j * c) (0 + Z.of_nat j * c + c) l =
  take (Z.to_nat c) (drop (j * Z.to_nat c) l).
Proof.
  intros Hc. unfold slice. f_equal; [f_equal; lia|]. f_equal. lia.
Qed.

(** The chunks of [n] texts, [c] at a time: they are not empty, hold at
    most [c] texts each and together make up the list. *)
Lemma chunks_cover {A} (c : Z) (l : list A) :
  (0 < c)%Z →
  let m := Z.to_nat (if (0 <? Z.of_nat (length l))%Z
                     then (Z.of_nat (length l) - 0 - 1) / c + 1 else 0)%Z in
  let chunks :=
    (λ i, slice i (i + c) l) <$> ((λ j : nat, (0 + Z.of_nat j * c)%Z) <$> seq 0 m) in
  concat chunks = l ∧
  Forall (λ chunk, 0 < length chunk ≤ Z.to_nat c) chunks.
Proof.
  intros Hc m chunks.
  assert (chunks = (λ j, take (Z.to_nat c) (drop (j * Z.to_nat c) l)) <$> seq 0 m)
    as Hchunks.
  { unfold chunks. rewrite <- list_fmap_compose. apply list_fmap_ext.
    intros i j _. simpl. by apply slice_chunk. }
  assert (length l ≤ m * Z.to_nat c ∧
          ∀ j, j < m → j * Z.to_nat c < length l) as [Hcover Hstart].
  { unfold m. destruct (0 <? Z.of_nat (length l))%Z eqn:E.
    - apply Z.ltb_lt in E.
      pose proof (Z.div_pos (Z.of_nat (length l) - 0 - 1) c ltac:(lia) Hc).
      pose proof (Z.mul_div_le (Z.of_nat (length l) - 0 - 1) c Hc).
      pose proof (Z.mul_succ_div_gt (Z.of_nat (length l) - 0 - 1) c Hc).
      split; [nia|]. intros j Hj. nia.
    - apply Z.ltb_ge in E. split; [lia|]. intros j Hj. simpl in Hj. lia. }
  split.
  - rewrite Hchunks, concat_chunks. by apply take_ge.
  - rewrite Hchunks. apply Forall_fmap, Forall_forall.
    intros j Hj%elem_of_seq. simpl. rewrite length_take, length_drop.
    specialize (Hstart j ltac:(lia)). lia.
Qed.
End nomic_further.

(** X10. On the direct path, with a positive chunk size and an endpoint
    that answers, [embed_documents] sends the prefixed texts in consecutive
    requests of at most [chunk_size] texts, none of them empty; the requests
    put end to end are exactly the texts, each with ["search_document: "] in
    front, and the result is the replies put end to end. *)
Theorem documents_sent_in_chunks
    (self : NomicEmbeddings.t) (texts : list string)
    (chunk_size_arg : option Z)
    (reply : list string → list NomicEmbeddings.Vector) :
  let c := NomicEmbeddings.effective_chunk_size self chunk_size_arg in
  let run := NomicEmbeddings.embed_documents self texts chunk_size_arg in
  let requests := NomicEmbeddings.sent_texts <$> trace run in
  NomicEmbeddings.check_embedding_ctx_length self = false →
  (0 < c)%Z →
  (∀ input, NomicEmbeddings.client_create self input = Ok (reply input)) →
  trace run = EmbeddingsCreate <$> requests ∧
  concat requests = (λ t, "search_document: " +:+ t) <$> texts ∧
  Forall (λ request, 0 < length request ≤ Z.to_nat c) requests ∧
  outcome run = Ok (concat (reply <$> requests)).
Proof.
  intros c run requests Hcheck Hc Hreply.
  pose proof (chunks_cover c
                (NomicEmbeddings._prefixed texts "search_document: ") Hc)
    as [Hconcat Hsizes].
  assert (run =
          (EmbeddingsCreate <$> ((λ i, NomicEmbeddings.slice i (i + c)
              (NomicEmbeddings._prefixed texts "search_document: ")) <$>
            ((λ j : nat, (0 + Z.of_nat j * c)%Z) <$> seq 0
               (Z.to_nat (if (0 <? Z.of_nat (length
                    (NomicEmbeddings._prefixed texts "search_document: ")))%Z
                  then (Z.of_nat (length
                    (NomicEmbeddings._prefixed texts "search_document: "))
                        - 0 - 1) / c + 1 else 0)%Z))),
           Ok (concat (reply <$> ((λ i, NomicEmbeddings.slice i (i + c)
              (NomicEmbeddings._prefixed texts "search_document: ")) <$>
            ((λ j : nat, (0 + Z.of_nat j * c)%Z) <$> seq 0
               (Z.to_nat (if (0 <? Z.of_nat (length
                    (NomicEmbeddings._prefixed texts "search_document: ")))%Z
                  then (Z.of_nat (length
                    (NomicEmbeddings._prefixed texts "search_document: "))
                        - 0 - 1) / c + 1 else 0)%Z))))))) as Hrun.
  { unfold run, NomicEmbeddings.embed_documents. cbv zeta. fold c.
    rewrite Hcheck. simpl negb. cbv iota.
    rewrite py_range_chunks by done. rewrite bind_lift_ok.
    by rewrite (chunk_loop_answers _ reply). }
  assert (requests =
          (λ i, NomicEmbeddings.slice i (i + c)
              (NomicEmbeddings._prefixed texts "search_document: ")) <$>
            ((λ j : nat, (0 + Z.of_nat j * c)%Z) <$> seq 0
               (Z.to_nat (if (0 <? Z.of_nat (length
                    (NomicEmbeddings._prefixed texts "search_document: ")))%Z
                  then (Z.of_nat (length
                    (NomicEmbeddings._prefixed texts "search_document: "))
                        - 0 - 1) / c + 1 else 0)%Z))) as Hrequests.
  { unfold requests. rewrite Hrun. unfold trace. cbn [fst].
    rewrite <- list_fmap_compose. apply list_fmap_id. }
  rewrite Hrequests. rewrite Hrun at 1 2. by repeat split.
Qed.

Lemma documents_sent_in_chunks_witness :
  trace (NomicEmbeddings.embed_documents more_samples.nomic_pairs
           ["a"; "b"; "c"] None) =
  [EmbeddingsCreate ["search_document: a"; "search_document: b"];
   EmbeddingsCreate ["search_document: c"]].
Proof.
  destruct (documents_sent_in_chunks more_samples.nomic_pairs ["a"; "b"; "c"]
              None (λ input, (λ _, [1 # 1]) <$> input)) as (H & _);
    [reflexivity|reflexivity|reflexivity|].
  exact H.
Defined.

(** X11. On the direct path a chunk size of zero (possible only when the
    argument is absent or zero and the configured size is zero) raises
    [ValueError] before any request; a negative chunk size sends no request
    either and returns an empty list, so that [embed_query] then raises
    [IndexError]. *)
Theorem degenerate_chunk_size
    (self : NomicEmbeddings.t) (texts : list string) (t : string)
    (chunk_size_arg : option Z) :
  let c := NomicEmbeddings.effective_chunk_size self chunk_size_arg in
  NomicEmbeddings.check_embedding_ctx_length self = false →
  (c = 0%Z →
   NomicEmbeddings.embed_documents self texts chunk_size_arg =
   ([], Raise (ValueError "range() arg 3 must not be zero"))) ∧
  ((c < 0)%Z →
   NomicEmbeddings.embed_documents self texts chunk_size_arg = ([], Ok []) ∧
   NomicEmbeddings.embed_query self t chunk_size_arg =
   ([], Raise (IndexError "list index out of range"))).
Proof.
  intros c Hcheck.
  assert (∀ l, (c < 0)%Z →
            NomicEmbeddings.embed_documents self l chunk_size_arg = ([], Ok []))
    as Hneg.
  { intros l Hc. unfold NomicEmbeddings.embed_documents. cbv zeta. fold c.
    rewrite Hcheck. simpl negb. cbv iota. unfold NomicEmbeddings.py_range.
    destruct (c =? 0)%Z eqn:E0; [apply Z.eqb_eq in E0; lia|].
    destruct (0 <? c)%Z eqn:E1; [apply Z.ltb_lt in E1; lia|].
    destruct (Z.of_nat _ <? 0)%Z eqn:E2; [apply Z.ltb_lt in E2; lia|].
    done. }
  split.
  - intros Hc. unfold NomicEmbeddings.embed_documents. cbv zeta. fold c.
    rewrite Hcheck, Hc. done.
  - intros Hc. split; [by apply Hneg|].
    unfold NomicEmbeddings.embed_query. cbv zeta. by rewrite Hneg.
Qed.

Lemma degenerate_chunk_size_witness :
  NomicEmbeddings.embed_documents more_samples.nomic_pairs ["a"] (Some (-1)%Z) =
    ([], Ok []) ∧
  NomicEmbeddings.embed_query more_samples.nomic_pairs "a" (Some (-1)%Z) =
    ([], Raise (IndexError "list index out of range")).
Proof.
  destruct (degenerate_chunk_size more_samples.nomic_pairs ["a"] "a"
              (Some (-1)%Z)) as [_ H]; [reflexivity|].
  apply H. reflexivity.
Defined.

(** X12. [embed_query] returns the first embedding of the reply and drops
    the rest; a reply without embeddings raises [IndexError], and a failed
    request raises its own exception. This holds on the length-safe path and,
    with a positive chunk size, on the direct path. *)
Theorem embed_query_first_embedding
    (self : NomicEmbeddings.t) (t : string) (chunk_size_arg : option Z) :
  let c := NomicEmbeddings.effective_chunk_size self chunk_size_arg in
  let sent := "search_document: search_query: " +:+ t in
  let reply :=
    if NomicEmbeddings.check_embedding_ctx_length self
    then NomicEmbeddings._get_len_safe_embeddings self [sent] c
    else NomicEmbeddings.client_create self [sent] in
  NomicEmbeddings.check_embedding_ctx_length self = true ∨ (0 < c)%Z →
  outcome (NomicEmbeddings.embed_query self t chunk_size_arg) =
  match reply with
  | Ok (first :: _) => Ok first
  | Ok [] => Raise (IndexError "list index out of range")
  | Raise e => Raise e
  end.
Proof.
  intros c sent reply Hpath.
  assert (NomicEmbeddings._prefixed
            (NomicEmbeddings._prefixed [t] "search_query: ")
            "search_document: " = [sent]) as Hpre by done.
  unfold NomicEmbeddings.embed_query, NomicEmbeddings.embed_documents.
  cbv zeta. rewrite Hpre. fold c. unfold reply.
  destruct (NomicEmbeddings.check_embedding_ctx_length self) eqn:Hcheck;
    simpl negb; cbv iota.
  - rewrite bind_emit. cbn [fst snd].
    destruct (NomicEmbeddings._get_len_safe_embeddings self [sent] c)
      as [[|first rest]|e]; done.
  - destruct Hpath as [?|Hc]; [done|].
    rewrite chunk_loop_single.
    destruct (c =? 0)%Z eqn:E0; [apply Z.eqb_eq in E0; lia|].
    destruct (0 <? c)%Z eqn:E1; [|apply Z.ltb_ge in E1; lia].
    destruct (NomicEmbeddings.client_create self [sent])
      as [[|first rest]|e]; done.
Qed.

Lemma embed_query_first_embedding_witness :
  outcome (NomicEmbeddings.embed_query more_samples.nomic_empty_reply "a" None) =
  Raise (IndexError "list index out of range").
Proof.
  apply (embed_query_first_embedding more_samples.nomic_empty_reply "a" None).
  right. reflexivity.
Defined.

(** ** The loader *)

Section loader_further.
Import MetaMessengerLoader.

Lemma for_each_ext {A S} (body body' : S → A → M S) xs s :
  (∀ s x, x ∈ xs → body s x = body' s x) →
  for_each body xs s = for_each body' xs s.
Proof.
  revert s. induction xs as [|x xs IH]; intros s Hext; [done|].
  cbn [for_each]. rewrite (Hext s x) by (by left).
  destruct (body' s x) as [t [s'|e]]; [|done].
  rewrite !bind_ok, IH; [done|]. intros s0 y Hy. apply Hext. by right.
Qed.

Lemma missing_directories_loop self dirs yielded :
  (∀ d, d ∈ dirs → exists_ self (joinpath self (data_dir self) d) = false) →
  for_each (dir_step self) dirs yielded =
  (missing_directory_line self <$> dirs, Ok yielded).
Proof.
  revert yielded. induction dirs as [|d dirs IH]; intros yielded Hmissing.
  { done. }
  cbn [for_each].
  assert (dir_step self yielded d = ([missing_directory_line self d], Ok yielded))
    as ->.
  { unfold dir_step. cbv zeta. by rewrite (Hmissing d) by (by left). }
  rewrite bind_ok.
  rewrite IH by (intros d' Hd'; apply Hmissing; by right). done.
Qed.

Lemma file_step_with_parser self parse yielded file_path :
  (is_file self file_path = true → parse file_path = _parse_file self file_path) →
  file_step (with_parser self parse) yielded file_path =
  file_step self yielded file_path.
Proof.
  intros Hsame. unfold file_step. cbn [with_parser is_file _parse_file].
  destruct (is_file self file_path); [|done]. by rewrite Hsame.
Qed.

Lemma dir_step_with_parser self parse yielded allowed_dir :
  (∀ f, f ∈ dir_files self allowed_dir → is_file self f = true →
        parse f = _parse_file self f) →
  dir_step (with_parser self parse) yielded allowed_dir =
  dir_step self yielded allowed_dir.
Proof.
  intros Hsame. unfold dir_step, dir_files in *.
  cbn [with_parser data_dir joinpath exists_ glob_json] in *.
  destruct (exists_ self _); [|done]. simpl negb. cbv iota.
  rewrite !bind_emit. destruct (glob_json self _) as [|f fs]; [done|].
  rewrite (for_each_ext (file_step (with_parser self parse)) (file_step self));
    [done|].
  intros s x Hx. apply file_step_with_parser. intros Hfile. by apply Hsame.
Qed.
End loader_further.

(** X13. When none of the allowed directories exists, [lazy_load] yields
    no document and raises nothing: it logs one warning per directory, in
    order, and parses no file. *)
Theorem missing_directories_yield_nothing (self : MetaMessengerLoader.t) :
  (∀ d, d ∈ MetaMessengerLoader.allowed_dirs self →
        MetaMessengerLoader.exists_ self
          (MetaMessengerLoader.joinpath self
             (MetaMessengerLoader.data_dir self) d) = false) →
  MetaMessengerLoader.lazy_load self =
  (missing_directory_line self <$> MetaMessengerLoader.allowed_dirs self,
   Ok []).
Proof. intros Hmissing. by apply missing_directories_loop. Qed.

Lemma missing_directories_yield_nothing_witness :
  MetaMessengerLoader.lazy_load more_samples.loader_nothing_there =
  ([Log "WARNING" "Directory your_facebook_activity/messages/inbox does not exist.";
    Log "WARNING" "Directory your_facebook_activity/messages/archived_threads does not exist.";
    Log "WARNING" "Directory your_facebook_activity/messages/e2ee_cutover does not exist.";
    Log "WARNING" "Directory your_facebook_activity/messages/filtered_threads does not exist."],
   Ok []).
Proof.
  apply (missing_directories_yield_nothing more_samples.loader_nothing_there).
  intros d _. reflexivity.
Defined.

(** X14. [lazy_load] parses only the paths it finds under the allowed
    directories, and of those only the ones that are files: what the parser
    would do on any other path has no effect on the documents or on the
    log. *)
Theorem only_visited_files_are_parsed
    (self : MetaMessengerLoader.t) (parse : string → M Document) :
  (∀ f, f ∈ files_of self → MetaMessengerLoader.is_file self f = true →
        parse f = MetaMessengerLoader._parse_file self f) →
  MetaMessengerLoader.lazy_load (with_parser self parse) =
  MetaMessengerLoader.lazy_load self.
Proof.
  intros Hsame. unfold MetaMessengerLoader.lazy_load.
  change (MetaMessengerLoader.allowed_dirs (with_parser self parse))
    with (MetaMessengerLoader.allowed_dirs self).
  apply for_each_ext. intros s d Hd. apply dir_step_with_parser.
  intros f Hf Hfile. apply Hsame; [|done]. unfold files_of.
  apply list_elem_of_In, in_concat. exists (dir_files self d).
  split; apply list_elem_of_In; [|done].
  apply list_elem_of_fmap. by exists d.
Qed.

Lemma only_visited_files_are_parsed_witness :
  MetaMessengerLoader.lazy_load
    (with_parser samples.loader_bad_then_good more_samples.parser_good_only) =
  MetaMessengerLoader.lazy_load samples.loader_bad_then_good.
Proof.
  apply (only_visited_files_are_parsed samples.loader_bad_then_good
           more_samples.parser_good_only).
  intros f Hf _. vm_compute in Hf.
  apply elem_of_cons in Hf as [->|Hf]; [reflexivity|].
  apply elem_of_cons in Hf as [->|Hf]; [reflexivity|].
  by apply elem_of_nil in Hf.
Defined.

(** ** Decoding the export *)

Section decoding_facts.
Import loaders_utils.

Lemma byte_value_bounded a : (byte_value a < 256)%N.
Proof. apply N_ascii_bounded. Qed.

Lemma byte_value_of_N n : (n < 256)%N → byte_value (ascii_of_N n) = n.
Proof. apply N_ascii_embedding. Qed.

Lemma of_byte_value a : ascii_of_N (byte_value a) = a.
Proof. apply ascii_N_embedding. Qed.

Lemma in_range_iff lo hi a :
  in_range lo hi a = true ↔ (lo <= byte_value a <= hi)%N.
Proof.
  unfold in_range. rewrite andb_true_iff, !N.leb_le. done.
Qed.

Lemma is_ascii_byte_iff a : is_ascii_byte a = true ↔ (byte_value a < 128)%N.
Proof. unfold is_ascii_byte. apply N.ltb_lt. Qed.

Lemma ascii_not_in_range lo hi a :
  is_ascii_byte a = true → (128 <= lo)%N → in_range lo hi a = false.
Proof.
  intros Ha%is_ascii_byte_iff Hlo. apply not_true_iff_false.
  intros [? ?]%in_range_iff. lia.
Qed.

Lemma latin1_encode_app_ascii a s :
  all_bytes is_ascii_byte a = true →
  latin1_encode (a +:+ s) = String.append a <$> latin1_encode s.
Proof.
  induction a as [|x a IH]; intros Ha; simpl in Ha.
  - change (latin1_encode s = String.append EmptyString <$> latin1_encode s).
    by destruct (latin1_encode s).
  - apply andb_true_iff in Ha as [Hx Ha].
    change (latin1_encode (String x (a +:+ s)) =
            String.append (String x a) <$> latin1_encode s).
    cbn [latin1_encode]. rewrite Hx, IH by done.
    by destruct (latin1_encode s).
Qed.

Lemma latin1_encode_char a s :
  latin1_encode (latin1_char a +:+ s) = String a <$> latin1_encode s.
Proof.
  unfold latin1_char. destruct (is_ascii_byte a) eqn:Ha.
  - change (latin1_encode (String a s) = String a <$> latin1_encode s).
    cbn [latin1_encode]. by rewrite Ha.
  - apply not_true_iff_false in Ha. rewrite is_ascii_byte_iff in Ha.
    pose proof (byte_value_bounded a) as Hb.
    destruct (byte_value a <? 192)%N eqn:E.
    + apply N.ltb_lt in E.
      change (latin1_encode (String (ascii_of_N 194) (String a s)) =
              String a <$> latin1_encode s).
      cbn [latin1_encode].
      change (is_ascii_byte (ascii_of_N 194)) with false. cbv iota.
      assert (is_continuation a = true) as -> by (apply in_range_iff; lia).
      done.
    + apply N.ltb_ge in E.
      change (latin1_encode (String (ascii_of_N 195)
                (String (ascii_of_N (byte_value a - 64)) s)) =
              String a <$> latin1_encode s).
      cbn [latin1_encode].
      change (is_ascii_byte (ascii_of_N 195)) with false. cbv iota.
      assert (byte_value (ascii_of_N (byte_value a - 64)) = byte_value a - 64)%N
        as Hv by (apply byte_value_of_N; lia).
      assert (is_continuation (ascii_of_N (byte_value a - 64)) = true) as ->.
      { apply in_range_iff. rewrite Hv. lia. }
      change (byte_value (ascii_of_N 195) =? 194)%N with false.
      change (byte_value (ascii_of_N 195) =? 195)%N with true. cbv iota.
      rewrite Hv. replace (byte_value a - 64 + 64)%N with (byte_value a) by lia.
      by rewrite of_byte_value.
Qed.

(** Reading the export's text as Latin-1 gives back the original bytes. *)
Lemma latin1_encode_double_encoded bytes :
  latin1_encode (double_encoded bytes) = Some bytes.
Proof.
  induction bytes as [|a rest IH]; [done|].
  cbn [double_encoded]. by rewrite latin1_encode_char, IH.
Qed.

Lemma latin1_encode_ascii s :
  all_bytes is_ascii_byte s = true → latin1_encode s = Some s.
Proof.
  induction s as [|a s IH]; [done|]. simpl. intros [Ha Hs]%andb_true_iff.
  by rewrite Ha, IH.
Qed.

Lemma utf8_valid_ascii s :
  all_bytes is_ascii_byte s = true → utf8_valid s = true.
Proof.
  induction s as [|a s IH]; [done|]. simpl. intros [Ha Hs]%andb_true_iff.
  rewrite Ha. by apply IH.
Qed.

(** A byte of 0x80 or more followed by ASCII only is not UTF-8. *)
Lemma utf8_invalid_lone_byte c b :
  is_ascii_byte c = false →
  all_bytes is_ascii_byte b = true →
  utf8_valid (String c b) = false.
Proof.
  intros Hc Hb. cbn [utf8_valid]. rewrite Hc.
  assert (∀ x lo hi, is_ascii_byte x = true → (128 <= lo)%N →
            in_range lo hi x = false) as Hno
    by (intros; by apply ascii_not_in_range).
  destruct b as [|b1 b]; [by repeat case_match|].
  simpl in Hb. apply andb_true_iff in Hb as [Hb1 Hb].
  assert (is_continuation b1 = false) as Hc1 by (by apply Hno).
  destruct (in_range 194 223 c); [by rewrite Hc1|].
  destruct (in_range 224 239 c).
  { destruct b as [|b2 b]; [done|].
    rewrite Hc1, !Hno by (done || lia). by repeat case_match. }
  destruct (in_range 240 244 c); [|done].
  destruct b as [|b2 [|b3 b]]; [done|done|].
  rewrite Hc1, !Hno by (done || lia). by repeat case_match.
Qed.

Lemma utf8_valid_app_ascii a s :
  all_bytes is_ascii_byte a = true → utf8_valid (a +:+ s) = utf8_valid s.
Proof.
  induction a as [|x a IH]; [done|]. simpl. intros [Hx Ha]%andb_true_iff.
  change (utf8_valid (String x (a +:+ s)) = utf8_valid s).
  cbn [utf8_valid]. rewrite Hx. by apply IH.
Qed.

Lemma latin1_encode_wide_bounded n s :
  String.length s ≤ n →
  any_byte is_wide_lead s = true → latin1_encode s = None.
Proof.
  revert s. induction n as [|n IH]; intros s Hlen Hwide.
  { destruct s; [done|simpl in Hlen; lia]. }
  destruct s as [|a rest]; [done|]. simpl in Hlen, Hwide.
  cbn [latin1_encode]. destruct (is_ascii_byte a) eqn:Ha.
  - assert (is_wide_lead a = false) as Hna.
    { apply is_ascii_byte_iff in Ha. unfold is_wide_lead. apply N.leb_gt. lia. }
    rewrite Hna in Hwide. simpl in Hwide. rewrite (IH rest) by (lia || done).
    done.
  - destruct rest as [|c rest']; [done|].
    destruct (is_continuation c) eqn:Hcont; [|done].
    assert (is_wide_lead c = false) as Hnc.
    { apply in_range_iff in Hcont. unfold is_wide_lead. apply N.leb_gt. lia. }
    simpl in Hwide, Hlen. rewrite Hnc in Hwide. simpl in Hwide.
    destruct (byte_value a =? 194)%N eqn:E194.
    + apply N.eqb_eq in E194.
      assert (is_wide_lead a = false) as Hna
        by (unfold is_wide_lead; apply N.leb_gt; lia).
      rewrite Hna in Hwide. simpl in Hwide.
      by rewrite (IH rest') by (lia || done).
    + destruct (byte_value a =? 195)%N eqn:E195; [|done].
      apply N.eqb_eq in E195.
      assert (is_wide_lead a = false) as Hna
        by (unfold is_wide_lead; apply N.leb_gt; lia).
      rewrite Hna in Hwide. simpl in Hwide.
      by rewrite (IH rest') by (lia || done).
Qed.
End decoding_facts.

(** X15. [get_decoded_content] undoes the double encoding of the export:
    given the text in which every byte of a UTF-8 text was written as a
    Latin-1 character, it returns the original text. *)
Theorem double_encoding_is_undone
    (py : loaders_utils.Python) (bytes : string) :
  loaders_utils.utf8_valid bytes = true →
  loaders_utils.get_decoded_content py
    (loaders_utils.JStr (double_encoded bytes)) = Ok bytes.
Proof.
  intros Hvalid. unfold loaders_utils.get_decoded_content, loaders_utils.decode_str.
  by rewrite latin1_encode_double_encoded, Hvalid.
Qed.

Lemma double_encoding_is_undone_witness :
  loaders_utils.get_decoded_content more_samples.python
    (loaders_utils.JStr "CafÃ©") = Ok "Café".
Proof.
  apply (double_encoding_is_undone more_samples.python "Café"). reflexivity.
Defined.

(** X16. A text of ASCII characters only, and a text with at least one
    character above U+00FF, come back from [get_decoded_content] unchanged. *)
Theorem plain_and_wide_text_unchanged
    (py : loaders_utils.Python) (content : string) :
  all_bytes loaders_utils.is_ascii_byte content = true ∨
  any_byte is_wide_lead content = true →
  loaders_utils.get_decoded_content py (loaders_utils.JStr content) = Ok content.
Proof.
  unfold loaders_utils.get_decoded_content, loaders_utils.decode_str.
  intros [Hascii|Hwide].
  - by rewrite latin1_encode_ascii, utf8_valid_ascii.
  - by rewrite (latin1_encode_wide_bounded (String.length content)).
Qed.

Lemma plain_and_wide_text_unchanged_witness :
  loaders_utils.get_decoded_content more_samples.python
    (loaders_utils.JStr "1000 zł") = Ok "1000 zł".
Proof.
  apply (plain_and_wide_text_unchanged more_samples.python "1000 zł").
  right. reflexivity.
Defined.

(** X17. A correctly encoded text in which one character between U+0080
    and U+00FF stands among ASCII characters makes [get_decoded_content]
    raise [UnicodeDecodeError]: the Latin-1 byte of that character is not
    UTF-8 on its own, and only [UnicodeEncodeError] is caught. *)
Theorem lone_latin1_character_raises
    (py : loaders_utils.Python) (before after : string) (c : ascii) :
  all_bytes loaders_utils.is_ascii_byte before = true →
  all_bytes loaders_utils.is_ascii_byte after = true →
  loaders_utils.is_ascii_byte c = false →
  loaders_utils.get_decoded_content py
    (loaders_utils.JStr (before +:+ latin1_char c +:+ after)) =
  Raise (loaders_utils.UnicodeDecodeError py (before +:+ String c after)).
Proof.
  intros Hbefore Hafter Hc.
  unfold loaders_utils.get_decoded_content, loaders_utils.decode_str.
  rewrite latin1_encode_app_ascii, latin1_encode_char by done.
  rewrite latin1_encode_ascii by done. cbn [fmap option_fmap option_map].
  rewrite utf8_valid_app_ascii by done.
  by rewrite utf8_invalid_lone_byte.
Qed.

Lemma lone_latin1_character_raises_witness :
  ∃ bytes,
    loaders_utils.get_decoded_content more_samples.python
      (loaders_utils.JStr "Café au lait") =
    Raise (loaders_utils.UnicodeDecodeError more_samples.python bytes).
Proof.
  eexists.
  apply (lone_latin1_character_raises more_samples.python "Caf" " au lait"
           (ascii_of_N 233)); reflexivity.
Defined.

(** ** Chat ids *)

Section chat_id_facts.
Import loaders_utils.





End chat_id_facts.



(** ** Parsing a conversation file *)

Lemma outcome_bind {A B} (m : M A) (f : A → M B) :
  outcome (m ≫= f) =
  match outcome m with
  | Ok a => outcome (f a)
  | Raise e => Raise e
  end.
Proof.
  destruct m as [t [a|e]]; [|done]. rewrite bind_ok. done.
Qed.

Lemma outcome_emit {B} (ev : event) (f : unit → M B) :
  outcome (emit ev ≫= f) = outcome (f tt).
Proof. by rewrite bind_emit. Qed.

Lemma outcome_lift {A} (r : result A) : outcome (lift r) = r.
Proof. done. Qed.

Lemma string_append_assoc (a b c : string) : (a +:+ b) +:+ c = a +:+ b +:+ c.
Proof.
  induction a as [|x a IH]; [done|].
  change (String x ((a +:+ b) +:+ c) = String x (a +:+ b +:+ c)). by f_equal.
Qed.

Lemma join_lines_app (l1 l2 : list string) :
  join_lines (l1 ++ l2) = join_lines l1 +:+ join_lines l2.
Proof.
  induction l1 as [|x l1 IH]; [done|].
  change (x +:+ join_lines (l1 ++ l2) = (x +:+ join_lines l1) +:+ join_lines l2).
  by rewrite IH, string_append_assoc.
Qed.

Section parse_facts.
Import loaders_utils messenger_parse.
Variable py : Python.
Variable keys : Keys.
Variable read_json : string → result JSON.

Lemma message_step_content text discarded message line :
  content_line py keys message line →
  outcome (message_step py keys (text, discarded) message) =
  Ok (text +:+ line, discarded).
Proof.
  intros (items & sender & ts & c & decoded & -> & Hs & Ht & Hc & Hd & ->).
  unfold sender_of in Hs. unfold time_of in Ht.
  unfold message_step. cbn [value_get].
  rewrite bind_lift_ok, Hs, bind_lift_ok, bind_lift_ok, Ht, bind_lift_ok.
  rewrite outcome_emit, Hc, Hd, bind_lift_ok. done.
Qed.



Lemma for_each_outcome_app {A S} (body : S → A → M S) xs ys s :
  outcome (for_each body (xs ++ ys) s) =
  match outcome (for_each body xs s) with
  | Ok s' => outcome (for_each body ys s')
  | Raise e => Raise e
  end.
Proof. by rewrite for_each_app, outcome_bind. Qed.

Lemma for_each_outcome_one {A S} (body : S → A → M S) x s :
  outcome (for_each body [x] s) = outcome (body s x).
Proof.
  cbn [for_each]. rewrite outcome_bind.
  by destruct (outcome (body s x)).
Qed.

(** Text messages are written in the reverse of their order in the file. *)
Lemma message_loop_content messages lines text discarded :
  Forall2 (content_line py keys) messages lines →
  outcome (for_each (message_step py keys) (rev messages) (text, discarded)) =
  Ok (text +:+ join_lines (rev lines), discarded).
Proof.
  induction 1 as [|m line ms ls Hm _ IH].
  - simpl. unfold outcome. simpl. by rewrite string_append_empty_r.
  - cbn [rev]. rewrite for_each_outcome_app, IH, for_each_outcome_one.
    rewrite (message_step_content _ _ m line) by done.
    rewrite join_lines_app, string_append_assoc. do 3 f_equal.
    unfold join_lines. simpl. by rewrite string_append_empty_r.
Qed.


Lemma content_line_not_empty message line :
  content_line py keys message line → line ≠ EmptyString.
Proof.
  intros (items & sender & ts & c & decoded & _ & _ & _ & _ & _ & ->).
  unfold MESSAGE_TEMPLATE. destruct sender; discriminate.
Qed.

(** The outcome of [_parse_file] in terms of the outcome of its loop. *)
Lemma parse_file_outcome file_path data messages :
  read_json file_path = Ok (JDict data) →
  get data (MESSAGES keys) (JList []) = JList messages →
  outcome (_parse_file py keys read_json file_path) =
  match outcome (for_each (message_step py keys) (rev messages)
                   (EmptyString, [])) with
  | Raise e => Raise e
  | Ok (EmptyString, _) => Ok (mkRaw EmptyString ∅)
  | Ok (document_text, _) =>
      match extract_conversation_meta py keys data with
      | Ok metadata => Ok (mkRaw document_text metadata)
      | Raise e => Raise e
      end
  end.
Proof.
  intros Hread Hmessages. unfold _parse_file.
  rewrite outcome_emit, Hread, bind_lift_ok. cbn [value_get].
  rewrite Hmessages, bind_lift_ok. cbn [reversed]. rewrite bind_lift_ok.
  rewrite outcome_bind.
  destruct (outcome (for_each _ _ _)) as [[text discarded]|e]; [|done].
  rewrite outcome_bind.
  assert (∀ B (k : unit → M B),
            match
              outcome
                match discarded with
                | [] => mret ()
                | _ :: _ =>
                    emit (Log "DEBUG"
                      ("Discarded " +:+ ingestion.str_nat (length discarded)
                       +:+ " unsupported messages in " +:+ file_path +:+ ": "
                       +:+ py_repr py (JList discarded)))
                end
            with
            | Ok a => outcome (k a)
            | Raise e => Raise e
            end = outcome (k tt)) as Hdisc.
  { intros B k. by destruct discarded. }
  rewrite Hdisc. destruct text as [|a text].
  - by rewrite outcome_emit.
  - rewrite outcome_bind, outcome_lift.
    destruct (extract_conversation_meta py keys data); [|done].
    by rewrite outcome_emit.
Qed.
End parse_facts.

Example export_loader_run :
  outcome (MetaMessengerLoader.lazy_load more_samples.export_loader) =
  Ok [mkDocument
        ("Ann (1970-01-01 00:00:00): hi" +:+ prompts.nl
         +:+ "Bob (1970-01-01 00:00:00): bye" +:+ prompts.nl)
        (<[ "participants" := "Ann, Bob" ]>
           (<[ "title" := "Ann" ]> {[ "chat_id" := "123" ]}));
      mkDocument EmptyString ∅].
Proof. vm_compute. reflexivity. Qed.

Section loader_error_line.
Import MetaMessengerLoader.

End loader_error_line.

(** X19. [_parse_file] writes the text messages of a conversation in the
    reverse of their order in the file, one line each, and attaches the
    metadata of the conversation. *)
Theorem messages_in_reverse_file_order
    (py : loaders_utils.Python) (keys : loaders_utils.Keys)
    (read_json : string → result loaders_utils.JSON) (file_path : string)
    (data : list (string * loaders_utils.JSON))
    (messages : list loaders_utils.JSON) (lines : list string)
    (metadata : gmap string loaders_utils.JSON) :
  read_json file_path = Ok (loaders_utils.JDict data) →
  loaders_utils.get data (loaders_utils.MESSAGES keys) (loaders_utils.JList []) =
    loaders_utils.JList messages →
  Forall2 (content_line py keys) messages lines →
  messages ≠ [] →
  loaders_utils.extract_conversation_meta py keys data = Ok metadata →
  outcome (messenger_parse._parse_file py keys read_json file_path) =
  Ok (messenger_parse.mkRaw (join_lines (rev lines)) metadata).
Proof.
  intros Hread Hmessages Hlines Hne Hmeta.
  rewrite (parse_file_outcome py keys read_json file_path data messages) by done.
  rewrite (message_loop_content py keys messages lines) by done.
  change (EmptyString +:+ join_lines (rev lines)) with (join_lines (rev lines)).
  rewrite Hmeta.
  destruct Hlines as [|m line ms ls Hm Hrest]; [done|].
  pose proof (content_line_not_empty py keys m line Hm) as Hline.
  cbn [rev]. rewrite join_lines_app.
  destruct (join_lines (rev ls) +:+ join_lines [line]) eqn:E; [|done].
  exfalso. apply Hline.
  destruct (join_lines (rev ls)); [|discriminate E].
  destruct line; [done|discriminate E].
Qed.

Lemma messages_in_reverse_file_order_witness :
  ∃ metadata,
    outcome (messenger_parse._parse_file more_samples.python
               more_samples.export_keys more_samples.read_export
               "mb/inbox/ann_123/message_1.json") =
    Ok (messenger_parse.mkRaw
          ("Ann (1970-01-01 00:00:00): hi" +:+ prompts.nl
           +:+ "Bob (1970-01-01 00:00:00): bye" +:+ prompts.nl) metadata).
Proof.
  eexists.
  apply (messages_in_reverse_file_order more_samples.python
           more_samples.export_keys more_samples.read_export
           "mb/inbox/ann_123/message_1.json"
           (more_samples.conversation
              [more_samples.message_bye; more_samples.message_hi])
           [more_samples.message_bye; more_samples.message_hi]
           ["Bob (1970-01-01 00:00:00): bye" +:+ prompts.nl;
            "Ann (1970-01-01 00:00:00): hi" +:+ prompts.nl]).
  - reflexivity.
  - reflexivity.
  - repeat constructor.
    + eexists _, "Bob", "1970-01-01 00:00:00", _, "bye". repeat split.
    + eexists _, "Ann", "1970-01-01 00:00:00", _, "hi". repeat split.
  - discriminate.
  - reflexivity.
Defined.





(** ** Conversation metadata *)

Lemma participant_names_ok py participants names :
  Forall2 (participant_name py) participants names →
  loaders_utils.participant_names py participants = Ok names.
Proof.
  induction 1 as [|p name ps ns (items & -> & Hname) _ IH]; [done|].
  cbn [loaders_utils.participant_names loaders_utils.value_get].
  by rewrite Hname, IH.
Qed.

(** X22. The metadata of a conversation has three entries: the chat id,
    the participants' names decoded and joined by [", "], and the title. The
    title is stored as the export has it, without decoding, and is
    [NO_TITLE] when the export has none. *)
Theorem conversation_metadata
    (py : loaders_utils.Python) (keys : loaders_utils.Keys)
    (data : list (string * loaders_utils.JSON)) (chat_id : string)
    (participants : list loaders_utils.JSON) (names : list string) :
  loaders_utils.CHAT_ID keys ≠ loaders_utils.TITLE keys →
  loaders_utils.CHAT_ID keys ≠ loaders_utils.PARTICIPANTS keys →
  loaders_utils.TITLE keys ≠ loaders_utils.PARTICIPANTS keys →
  loaders_utils.extract_chat_id keys data = Ok chat_id →
  loaders_utils.get data (loaders_utils.PARTICIPANTS keys)
    (loaders_utils.JList []) = loaders_utils.JList participants →
  Forall2 (participant_name py) participants names →
  ∃ metadata,
    loaders_utils.extract_conversation_meta py keys data = Ok metadata ∧
    dom metadata =
      {[ loaders_utils.CHAT_ID keys; loaders_utils.TITLE keys;
         loaders_utils.PARTICIPANTS keys ]} ∧
    metadata !! loaders_utils.CHAT_ID keys = Some (loaders_utils.JStr chat_id) ∧
    metadata !! loaders_utils.TITLE keys =
      Some (loaders_utils.get data (loaders_utils.TITLE keys)
              (loaders_utils.JStr (loaders_utils.NO_TITLE keys))) ∧
    metadata !! loaders_utils.PARTICIPANTS keys =
      Some (loaders_utils.JStr (FormulateAnswer.str_join ", " names)).
Proof.
  intros Hct Hcp Htp Hid Hparticipants Hnames.
  eexists. split.
  - unfold loaders_utils.extract_conversation_meta,
      loaders_utils._extract_participants.
    rewrite Hid, Hparticipants. cbn [loaders_utils.iterate].
    by rewrite (participant_names_ok py participants names).
  - split; [|split; [|split]].
    + rewrite !dom_insert_L, dom_singleton_L. set_solver.
    + rewrite !lookup_insert_ne by done. by rewrite lookup_singleton_eq.
    + rewrite lookup_insert_ne by done. by rewrite lookup_insert_eq.
    + by rewrite lookup_insert_eq.
Qed.

Lemma conversation_metadata_witness :
  ∃ metadata,
    loaders_utils.extract_conversation_meta more_samples.python
      more_samples.export_keys
      (more_samples.conversation [more_samples.message_hi]) = Ok metadata ∧
    metadata !! "title" = Some (loaders_utils.JStr "Ann") ∧
    metadata !! "participants" = Some (loaders_utils.JStr "Ann, Bob").
Proof.
  destruct (conversation_metadata more_samples.python more_samples.export_keys
              (more_samples.conversation [more_samples.message_hi]) "123"
              [loaders_utils.JDict [("name", loaders_utils.JStr "Ann")];
               loaders_utils.JDict [("name", loaders_utils.JStr "Bob")]]
              ["Ann"; "Bob"])
    as (metadata & Hmeta & _ & _ & Htitle & Hnames);
    [discriminate|discriminate|discriminate|reflexivity|reflexivity| |].
  - repeat constructor; eexists; split; reflexivity.
  - exists metadata. repeat split; assumption.
Defined.

Example remove_image_tags_samples :
  runnables_utils.sub_from 0 "Ann (t): ![](photos/a.jpg)" = "Ann (t): " ∧
  runnables_utils.sub_from 0 "a ![x](y) b ![](z) c" = "a  b  c" ∧
  runnables_utils.sub_from 0 "![a](b" = "![a](b" ∧
  runnables_utils.sub_from 0 "![a]b ](c) d" = " d" ∧
  runnables_utils.sub_from 0 ("![a" +:+ prompts.nl +:+ "](c)") =
    "![a" +:+ prompts.nl +:+ "](c)" ∧
  runnables_utils.sub_from 0 "!![a](b)[c](d)" = "![c](d)".
Proof. vm_compute. repeat split. Qed.

(** ** Removing image tags *)

Section image_tag_facts.
Import runnables_utils.

Lemma string_length_append (s t : string) :
  String.length (s +:+ t) = String.length s + String.length t.
Proof.
  induction s as [|a s IH]; [done|].
  change (S (String.length (s +:+ t)) = S (String.length s + String.length t)).
  by rewrite IH.
Qed.

Lemma match_length_not_bang a rest :
  a ≠ "!"%char → match_length (String a rest) = None.
Proof.
  intros Hne. destruct a as [[] [] [] [] [] [] [] []]; try reflexivity.
  by destruct Hne.
Qed.

Lemma sub_from_app_no_bang (pre s : string) :
  contains "!" pre = false → sub_from 0 (pre +:+ s) = pre +:+ sub_from 0 s.
Proof.
  induction pre as [|a pre IH]; [done|]. intros Hpre. simpl in Hpre.
  destruct (decide (a = "!"%char)) as [|Ha]; [done|].
  change (sub_from 0 (String a (pre +:+ s)) = String a (pre +:+ sub_from 0 s)).
  cbn [sub_from]. rewrite match_length_not_bang by done. by rewrite IH.
Qed.

Lemma lazy_to_bracket_paren_step a rest :
  a ≠ "]"%char →
  lazy_to_bracket_paren (String a rest) =
  if decide (a = newline) then None
  else match lazy_to_bracket_paren rest with
       | Some (n, tail) => Some (S n, tail)
       | None => None
       end.
Proof.
  intros Hne. destruct a as [[] [] [] [] [] [] [] []]; try reflexivity.
  by destruct Hne.
Qed.

Lemma lazy_to_bracket_paren_app (alt rest : string) :
  contains "]" alt = false → contains newline alt = false →
  lazy_to_bracket_paren (alt +:+ "](" +:+ rest) =
  Some (String.length alt + 2, rest).
Proof.
  induction alt as [|a alt IH]; [done|]. intros H1 H2. simpl in H1, H2.
  destruct (decide (a = "]"%char)) as [|Hb]; [done|].
  destruct (decide (a = newline)) as [|Hn]; [done|].
  change (lazy_to_bracket_paren (String a (alt +:+ "](" +:+ rest)) =
          Some (S (String.length alt + 2), rest)).
  rewrite lazy_to_bracket_paren_step by done.
  rewrite decide_False by done. by rewrite IH.
Qed.

Lemma lazy_to_paren_app (url rest : string) :
  contains ")" url = false → contains newline url = false →
  lazy_to_paren (url +:+ ")" +:+ rest) = Some (String.length url + 1, rest).
Proof.
  induction url as [|a url IH]; [done|]. intros H1 H2. simpl in H1, H2.
  destruct (decide (a = ")"%char)) as [|Hp]; [done|].
  destruct (decide (a = newline)) as [|Hn]; [done|].
  change (lazy_to_paren (String a (url +:+ ")" +:+ rest)) =
          Some (S (String.length url + 1), rest)).
  cbn [lazy_to_paren]. rewrite !decide_False by done. by rewrite IH.
Qed.

Lemma sub_from_skip (dropped rest : string) :
  sub_from (String.length dropped) (dropped +:+ rest) = sub_from 0 rest.
Proof.
  induction dropped as [|a dropped IH]; [done|].
  change (sub_from (S (String.length dropped)) (String a (dropped +:+ rest)) =
          sub_from 0 rest).
  destruct rest; cbn [sub_from]; apply IH.
Qed.

Lemma match_length_tag (body : string) :
  match_length (String "!" (String "[" body)) =
  match lazy_to_bracket_paren body with
  | Some (n1, rest1) =>
      match lazy_to_paren rest1 with
      | Some (n2, _) => Some (2 + n1 + n2)
      | None => None
      end
  | None => None
  end.
Proof. reflexivity. Qed.

Lemma sub_from_match a rest n :
  match_length (String a rest) = Some n →
  sub_from 0 (String a rest) = sub_from (n - 1) rest.
Proof. intros Hmatch. cbn [sub_from]. by rewrite Hmatch. Qed.

Lemma tag_body_assoc (alt url rest : string) :
  (alt +:+ "](" +:+ url +:+ ")") +:+ rest = alt +:+ "](" +:+ url +:+ ")" +:+ rest.
Proof.
  rewrite string_append_assoc. f_equal.
  change (String "]" (String "(" ((url +:+ ")") +:+ rest)) =
          String "]" (String "(" (url +:+ ")" +:+ rest))).
  by rewrite string_append_assoc.
Qed.

(** A tag at the start of the text is dropped whole, and the scan goes on
    behind it. *)
Lemma sub_from_tag (alt url rest : string) :
  contains "]" alt = false → contains newline alt = false →
  contains ")" url = false → contains newline url = false →
  sub_from 0 ("![" +:+ alt +:+ "](" +:+ url +:+ ")" +:+ rest) = sub_from 0 rest.
Proof.
  intros Ha1 Ha2 Hu1 Hu2.
  change ("![" +:+ alt +:+ "](" +:+ url +:+ ")" +:+ rest)
    with (String "!" (String "[" (alt +:+ "](" +:+ url +:+ ")" +:+ rest))).
  rewrite (sub_from_match _ _
             (2 + (String.length alt + 2) + (String.length url + 1))).
  - replace (2 + (String.length alt + 2) + (String.length url + 1) - 1)
      with (String.length (String "[" (alt +:+ "](" +:+ url +:+ ")"))).
    + rewrite <- tag_body_assoc.
      apply (sub_from_skip (String "[" (alt +:+ "](" +:+ url +:+ ")")) rest).
    + change (S (String.length (alt +:+ String "]" (String "(" (url +:+ ")")))) =
              2 + (String.length alt + 2) + (String.length url + 1) - 1).
      rewrite string_length_append.
      change (S (String.length alt + S (S (String.length (url +:+ ")")))) =
              2 + (String.length alt + 2) + (String.length url + 1) - 1).
      rewrite string_length_append. simpl. lia.
  - rewrite match_length_tag.
    by rewrite lazy_to_bracket_paren_app, lazy_to_paren_app.
Qed.
End image_tag_facts.

(** X23. [remove_image_tags] keeps the metadata and leaves a text without
    exclamation mark as it is. A tag [![alt](url)] that follows such a text
    is removed whole when [alt] and [url] stay on one line, [alt] has no
    closing bracket and [url] no closing parenthesis; the text before it
    stays and the rest is cleaned in turn. *)
Theorem image_tag_removed
    (before alt url rest : string) (md : gmap string string) :
  contains "!" before = false →
  contains "]" alt = false → contains runnables_utils.newline alt = false →
  contains ")" url = false → contains runnables_utils.newline url = false →
  runnables_utils.remove_image_tags (mkDocument before md) =
    mkDocument before md ∧
  runnables_utils.remove_image_tags
    (mkDocument (before +:+ "![" +:+ alt +:+ "](" +:+ url +:+ ")" +:+ rest) md) =
    mkDocument
      (before +:+ page_content
                    (runnables_utils.remove_image_tags (mkDocument rest md)))
      md.
Proof.
  intros Hbefore Ha1 Ha2 Hu1 Hu2.
  unfold runnables_utils.remove_image_tags. cbn [page_content metadata].
  split; f_equal.
  - rewrite <- (string_append_empty_r before) at 1.
    rewrite sub_from_app_no_bang by done. apply string_append_empty_r.
  - rewrite sub_from_app_no_bang by done. f_equal. by apply sub_from_tag.
Qed.

Lemma image_tag_removed_witness :
  runnables_utils.remove_image_tags
    (mkDocument ("see " +:+ "![" +:+ "a cat" +:+ "](" +:+ "cat.png" +:+ ")"
                 +:+ " and more") ∅) =
  mkDocument "see  and more" ∅.
Proof.
  apply (image_tag_removed "see " "a cat" "cat.png" " and more" ∅);
    reflexivity.
Defined.

(** X24. What the ingestion script leaves of a photo message. The line
    [_parse_file] writes for a photo is the sender, the time and the tag
    [![](uri)]; [remove_image_tags] reduces it to the sender and the time,
    provided these hold no exclamation mark and the uri no closing
    parenthesis or newline. *)
Theorem photo_line_loses_its_uri
    (sender timestamp uri rest : string) (md : gmap string string) :
  contains "!" sender = false →
  contains "!" timestamp = false →
  contains ")" uri = false → contains runnables_utils.newline uri = false →
  page_content
    (runnables_utils.remove_image_tags
       (mkDocument
          (messenger_parse.PHOTO_TEMPLATE sender timestamp uri +:+ prompts.nl
           +:+ rest) md)) =
  sender +:+ " (" +:+ timestamp +:+ "): " +:+ prompts.nl
  +:+ page_content (runnables_utils.remove_image_tags (mkDocument rest md)).
Proof.
  intros Hs Ht Hu1 Hu2. unfold runnables_utils.remove_image_tags.
  cbn [page_content]. unfold messenger_parse.PHOTO_TEMPLATE.
  rewrite !string_append_assoc.
  rewrite sub_from_app_no_bang by done. f_equal.
  rewrite (sub_from_app_no_bang " (") by done. f_equal.
  rewrite sub_from_app_no_bang by done. f_equal.
  change ("): ![](" +:+ uri +:+ ")" +:+ prompts.nl +:+ rest)
    with ("): " +:+ "![" +:+ EmptyString +:+ "](" +:+ uri +:+ ")"
          +:+ prompts.nl +:+ rest).
  rewrite (sub_from_app_no_bang "): ") by done.
  rewrite sub_from_tag by done.
  change ("): " +:+ prompts.nl +:+ runnables_utils.sub_from 0 rest)
    with ("): " +:+ String "010"%char (runnables_utils.sub_from 0 rest)).
  f_equal.
Qed.

Lemma photo_line_loses_its_uri_witness :
  page_content
    (runnables_utils.remove_image_tags
       (mkDocument
          (messenger_parse.PHOTO_TEMPLATE "Ann" "2024-01-01 10:00:00"
             "photos/1.jpg" +:+ prompts.nl +:+ EmptyString) ∅)) =
  "Ann (2024-01-01 10:00:00): " +:+ prompts.nl.
Proof.
  apply (photo_line_loses_its_uri "Ann" "2024-01-01 10:00:00" "photos/1.jpg"
           EmptyString ∅); reflexivity.
Defined.

(** ** Ingestion *)

(** X25. The assignment loop writes the [source] entry of each chunk's
    metadata and nothing else: every other entry of a chunk's metadata is
    as before, and so is every dict that no chunk refers to. *)
Theorem only_source_is_written
    (CHAT_ID : string) (texts : list ingestion.Chunk)
    (store : gmap nat (gmap string string)) :
  NoDup (ingestion.metadata_ref <$> texts) →
  let store' := ingestion.assign_sources CHAT_ID texts store in
  (∀ text key,
     text ∈ texts → key ≠ "source" →
     ingestion.deref store' (ingestion.metadata_ref text) !! key =
     ingestion.deref store (ingestion.metadata_ref text) !! key) ∧
  (∀ r, r ∉ ingestion.metadata_ref <$> texts →
        ingestion.deref store' r = ingestion.deref store r).
Proof.
  intros Hnd store'. split.
  - intros text key Hin Hkey.
    apply list_elem_of_lookup in Hin as [j Hj].
    unfold store', ingestion.assign_sources.
    rewrite (deref_assign_sources_at CHAT_ID texts 0 store j) by done.
    by rewrite lookup_insert_ne.
  - intros r Hr. by apply deref_assign_sources_other.
Qed.

Lemma only_source_is_written_witness :
  ingestion.deref
    (ingestion.assign_sources samples.chat_id_key samples.two_chunks
       samples.two_dicts) 1 !! samples.chat_id_key = Some "B".
Proof.
  destruct (only_source_is_written samples.chat_id_key samples.two_chunks
              samples.two_dicts) as [H _].
  - apply (bool_decide_unpack _). vm_compute. exact I.
  - etrans; [apply (H (ingestion.mkChunk "bye" 1) samples.chat_id_key)|].
    + apply list_elem_of_further, list_elem_of_here.
    + discriminate.
    + reflexivity.
Defined.

(** X26. Ingestion and retrieval fit together. When every chunk has a
    metadata dict of its own, the documents of the ingested chunks all
    carry a source, so [_process_documents] does not fail on candidates drawn
    from them, and two chunks at different positions never share a source:
    deduplication merges only candidates for the same chunk. *)
Theorem ingested_chunks_merge_safely
    (self : MessageRetrieval.t) (CHAT_ID : string)
    (texts : list ingestion.Chunk) (store : gmap nat (gmap string string))
    (pool : list MessageRetrieval.Scored) :
  NoDup (ingestion.metadata_ref <$> texts) →
  let store' := ingestion.assign_sources CHAT_ID texts store in
  Forall (λ x, ∃ chunk, chunk ∈ texts ∧ x.1 = chunk_document store' chunk) pool →
  (∃ out, MessageRetrieval._process_documents self pool = Ok out) ∧
  (∀ i j ci cj,
     texts !! i = Some ci → texts !! j = Some cj →
     MessageRetrieval.source_of (chunk_document store' ci) =
     MessageRetrieval.source_of (chunk_document store' cj) →
     i = j).
Proof.
  intros Hnd store' Hpool.
  assert (∀ j chunk,
            texts !! j = Some chunk →
            MessageRetrieval.source_of (chunk_document store' chunk) =
            Ok (ingestion.conversation_id CHAT_ID store chunk +:+ "-"
                +:+ ingestion.str_nat j)) as Hsrc.
  { intros j chunk Hj. unfold MessageRetrieval.source_of, chunk_document.
    cbn [metadata]. unfold store', ingestion.assign_sources.
    rewrite (deref_assign_sources_at CHAT_ID texts 0 store j) by done.
    change SOURCE with "source". by rewrite lookup_insert_eq. }
  split.
  - apply process_documents_total. eapply Forall_impl; [exact Hpool|].
    intros x (chunk & Hin & Hx). apply list_elem_of_lookup in Hin as [j Hj].
    specialize (Hsrc j chunk Hj). unfold src. rewrite Hx.
    unfold MessageRetrieval.source_of in Hsrc.
    destruct (metadata (chunk_document store' chunk) !! SOURCE); [by eexists|done].
  - intros i j ci cj Hi Hj Heq.
    rewrite (Hsrc i ci Hi), (Hsrc j cj Hj) in Heq. injection Heq as Heq.
    apply dash_suffix_inj in Heq; [|apply str_nat_no_dash..].
    by apply str_nat_inj.
Qed.

Lemma ingested_chunks_merge_safely_witness :
  ∃ out,
    MessageRetrieval._process_documents samples.retrieval_ab
      [(chunk_document
          (ingestion.assign_sources samples.chat_id_key samples.two_chunks
             samples.two_dicts) (ingestion.mkChunk "bye" 1), 1 # 2)] = Ok out.
Proof.
  destruct (ingested_chunks_merge_safely samples.retrieval_ab
              samples.chat_id_key samples.two_chunks samples.two_dicts
              [(chunk_document
                  (ingestion.assign_sources samples.chat_id_key
                     samples.two_chunks samples.two_dicts)
                  (ingestion.mkChunk "bye" 1), 1 # 2)]) as [H _].
  - apply (bool_decide_unpack _). vm_compute. exact I.
  - repeat constructor. exists (ingestion.mkChunk "bye" 1). split; [|done].
    apply list_elem_of_further, list_elem_of_here.
  - exact H.
Defined.
